(** * gitfuse: a read-only FUSE view of a git repository (gitfs.py)

    Shallow embedding of [gitfs.py] and the properties of its path
    resolution, tree navigation, attribute synthesis and content reads.

    Conventions of the embedding:
    - Python 2 [str] values used as paths and names are [string]; blob
      contents are [list byte];
    - Python integers are [Z];
    - a call either returns a value or raises: [result A];
    - the pygit2 repository is a record holding the reference table, the
      object store and the [os.lstat] record of the repository directory. *)

From Stdlib Require Import ZArith String Ascii List Lia.
From stdpp Require Import base option list gmap strings.

Local Open Scope string_scope.
Local Open Scope Z_scope.

(** ** Python values, exceptions and results *)

Module Py.

(** [errno] and [os] constants (Linux). *)
Definition ENOENT : Z := 2.
Definition EACCES : Z := 13.
Definition O_RDONLY : Z := 0.
Definition O_WRONLY : Z := 1.
Definition O_RDWR : Z := 2.
Definition O_ACCMODE : Z := 3.
(** [stat.S_IFDIR] is octal 040000. *)
Definition S_IFDIR : Z := 16384.

Inductive exception : Type :=
| FuseOSError (errno : Z)
| GitFSError (message : string) (matching : list string)
| KeyError
| TypeError
| IndexError
| ValueError
| AttributeError.

Inductive result (A : Type) : Type :=
| Return (a : A)
| Raise (e : exception).
Arguments Return {A} a.
Arguments Raise {A} e.

#[export] Instance result_ret : MRet result := fun A a => Return a.
#[export] Instance result_bind : MBind result := fun A B f m =>
  match m with
  | Return a => f a
  | Raise e => Raise e
  end.

(** What [open] and [read] hand back with [return]: an integer, a byte
    string, or an exception object (returned, not raised). *)
Inductive value : Type :=
| VInt (n : Z)
| VStr (data : list Byte.byte)
| VExc (e : exception).

(** [s.startswith(prefix)] *)
Fixpoint startswith (s prefix : string) {struct prefix} : bool :=
  match prefix with
  | EmptyString => true
  | String a prefix' =>
      match s with
      | EmptyString => false
      | String b s' => if Ascii.eqb a b then startswith s' prefix' else false
      end
  end.

(** [s[n:]] for a non-negative [n] *)
Fixpoint str_from (s : string) (n : nat) {struct n} : string :=
  match n with
  | O => s
  | S n' =>
      match s with
      | EmptyString => EmptyString
      | String _ s' => str_from s' n'
      end
  end.

(** [s.split(sep)] for a one-character separator *)
Fixpoint split (s : string) (sep : ascii) : list string :=
  match s with
  | EmptyString => [EmptyString]
  | String c s' =>
      if Ascii.eqb c sep then EmptyString :: split s' sep
      else
        match split s' sep with
        | h :: t => String c h :: t
        | [] => [String c EmptyString]
        end
  end.

(** [s.split(sep, maxsplit)] for a one-character separator *)
Fixpoint split_max (s : string) (sep : ascii) (maxsplit : nat) {struct s}
  : list string :=
  match maxsplit with
  | O => [s]
  | S m =>
      match s with
      | EmptyString => [EmptyString]
      | String c s' =>
          if Ascii.eqb c sep then EmptyString :: split_max s' sep m
          else
            match split_max s' sep (S m) with
            | h :: t => String c h :: t
            | [] => [String c EmptyString]
            end
      end
  end.

(** [l[i]] for a non-negative literal index: [IndexError] out of range *)
Definition index {A} (l : list A) (i : nat) : result A :=
  match l !! i with
  | Some x => Return x
  | None => Raise IndexError
  end.

(** [l[-1]] *)
Definition index_last {A} (l : list A) : result A :=
  match last l with
  | Some x => Return x
  | None => Raise IndexError
  end.

(** [l[:-1]] *)
Definition but_last {A} (l : list A) : list A := removelast l.

(** Clamping of one slice bound against a sequence of length [n]:
    a negative bound counts from the end, then both are clipped. *)
Definition slice_bound (n i : Z) : Z :=
  if i <? 0 then Z.max 0 (i + n) else Z.min i n.

(** [l[i:j]] *)
Definition slice {A} (l : list A) (i j : Z) : list A :=
  let n := Z.of_nat (length l) in
  let lo := slice_bound n i in
  let hi := slice_bound n j in
  take (Z.to_nat (hi - lo)) (drop (Z.to_nat lo) l).

(** [reduce(f, seq, init)] where [f] may raise *)
Fixpoint reduce {A B} (f : A -> B -> result A) (seq : list B) (init : A)
  : result A :=
  match seq with
  | [] => Return init
  | x :: seq' => a ← f init x; reduce f seq' a
  end.

(** [list(frozenset(l))]: the distinct members, in an order the
    language leaves unspecified. *)
Definition list_frozenset (l : list string) : list string :=
  elements (list_to_set l : gset string).

End Py.
Export Py.

(** ** The [Stat] named tuple and [copy_stat] *)

Record Stat : Type := mkStat {
  st_mode : Z;
  st_ino : Z;
  st_dev : Z;
  st_nlink : Z;
  st_uid : Z;
  st_gid : Z;
  st_size : Z;
  st_atime : Z;
  st_mtime : Z;
  st_ctime : Z
}.

(** Keyword names accepted by [Stat._replace]. *)
Inductive stat_key : Type :=
| k_st_mode | k_st_ino | k_st_dev | k_st_nlink | k_st_uid
| k_st_gid | k_st_size | k_st_atime | k_st_mtime | k_st_ctime.

(** [st._replace(key=v)] *)
Definition replace1 (st : Stat) (kv : stat_key * Z) : Stat :=
  let v := kv.2 in
  match kv.1 with
  | k_st_mode => mkStat v (st_ino st) (st_dev st) (st_nlink st) (st_uid st)
                   (st_gid st) (st_size st) (st_atime st) (st_mtime st) (st_ctime st)
  | k_st_ino => mkStat (st_mode st) v (st_dev st) (st_nlink st) (st_uid st)
                   (st_gid st) (st_size st) (st_atime st) (st_mtime st) (st_ctime st)
  | k_st_dev => mkStat (st_mode st) (st_ino st) v (st_nlink st) (st_uid st)
                   (st_gid st) (st_size st) (st_atime st) (st_mtime st) (st_ctime st)
  | k_st_nlink => mkStat (st_mode st) (st_ino st) (st_dev st) v (st_uid st)
                   (st_gid st) (st_size st) (st_atime st) (st_mtime st) (st_ctime st)
  | k_st_uid => mkStat (st_mode st) (st_ino st) (st_dev st) (st_nlink st) v
                   (st_gid st) (st_size st) (st_atime st) (st_mtime st) (st_ctime st)
  | k_st_gid => mkStat (st_mode st) (st_ino st) (st_dev st) (st_nlink st) (st_uid st)
                   v (st_size st) (st_atime st) (st_mtime st) (st_ctime st)
  | k_st_size => mkStat (st_mode st) (st_ino st) (st_dev st) (st_nlink st) (st_uid st)
                   (st_gid st) v (st_atime st) (st_mtime st) (st_ctime st)
  | k_st_atime => mkStat (st_mode st) (st_ino st) (st_dev st) (st_nlink st) (st_uid st)
                   (st_gid st) (st_size st) v (st_mtime st) (st_ctime st)
  | k_st_mtime => mkStat (st_mode st) (st_ino st) (st_dev st) (st_nlink st) (st_uid st)
                   (st_gid st) (st_size st) (st_atime st) v (st_ctime st)
  | k_st_ctime => mkStat (st_mode st) (st_ino st) (st_dev st) (st_nlink st) (st_uid st)
                   (st_gid st) (st_size st) (st_atime st) (st_mtime st) v
  end.

(** [st._replace] with keyword arguments [kwargs] *)
Definition _replace (st : Stat) (kwargs : list (stat_key * Z)) : Stat :=
  fold_left replace1 kwargs st.

(** The octal literal [0222]: the three write permission bits. *)
Definition write_bits : Z := 146.

(** [copy_stat] of [st] with keyword arguments [kwargs]; the dictionary [_asdict()] builds has the
    record's ten keys, so the record stands for it. *)
Definition copy_stat (st : Stat) (kwargs : list (stat_key * Z)) : Stat :=
  let result := st in
  let result := _replace result kwargs in
  let result :=
    _replace result
      [(k_st_ino, 0); (k_st_mode, Z.land (st_mode result) (Z.lnot write_bits))] in
  result.

(** ** The pygit2 object model the program reads *)

Module pygit2.

Definition Oid : Type := N.

Record TreeEntry : Type := mkEntry {
  name : string;
  filemode : Z;
  oid : Oid
}.

Inductive Object : Type :=
| Commit (tree : Oid)
| Tree (entries : list TreeEntry)
| Blob (data : list Byte.byte)
| Tag (target : Oid).

Inductive Reference : Type :=
| Direct (target : Oid)
| Symbolic (target : string).

(** The repository: its references by full name (['refs/heads/master']),
    its object store, and what [os.lstat(repo.path)] gives. *)
Record Repository : Type := mkRepo {
  path_lstat : Stat;
  references : list (string * Reference);
  objects : gmap Oid Object
}.

(** [repo.listall_references()] *)
Definition listall_references (repo : Repository) : list string :=
  (references repo).*1.

(** [repo.lookup_reference(name)] *)
Definition lookup_reference (repo : Repository) (n : string)
  : result Reference :=
  match List.find (fun nr => String.eqb nr.1 n) (references repo) with
  | Some nr => Return nr.2
  | None => Raise KeyError
  end.

(** [repo[oid]] *)
Definition getitem (repo : Repository) (o : Oid) : result Object :=
  match objects repo !! o with
  | Some obj => Return obj
  | None => Raise KeyError
  end.

(** [ref.oid]: only a direct reference has one. *)
Definition ref_oid (ref : Reference) : result Oid :=
  match ref with
  | Direct o => Return o
  | Symbolic _ => Raise ValueError
  end.

(** [ref.resolve()]: follows symbolic references, to the nesting depth
    the library allows. *)
Fixpoint resolve_upto (depth : nat) (repo : Repository) (ref : Reference)
  : result Reference :=
  match ref with
  | Direct _ => Return ref
  | Symbolic t =>
      match depth with
      | O => Raise ValueError
      | S d => r ← lookup_reference repo t; resolve_upto d repo r
      end
  end.
Definition resolve : Repository -> Reference -> result Reference :=
  resolve_upto 5.

(** [commit.tree]: an attribute of commit objects only. *)
Definition commit_tree (repo : Repository) (commit : Object) : result Object :=
  match commit with
  | Commit t => getitem repo t
  | _ => Raise AttributeError
  end.

(** [tree[part]]: subscripting works on trees only, by entry name. *)
Definition tree_getitem (t : Object) (part : string) : result TreeEntry :=
  match t with
  | Tree entries =>
      match List.find (fun e => String.eqb (name e) part) entries with
      | Some e => Return e
      | None => Raise KeyError
      end
  | _ => Raise TypeError
  end.

(** [entry.to_object()] *)
Definition to_object (repo : Repository) (e : TreeEntry) : result Object :=
  getitem repo (oid e).

(** [blob.data]: an attribute of blobs only. *)
Definition blob_data (blob : Object) : result (list Byte.byte) :=
  match blob with
  | Blob d => Return d
  | _ => Raise AttributeError
  end.

(** [for entry in tree]: iteration works on trees only. *)
Definition iter_tree (t : Object) : result (list TreeEntry) :=
  match t with
  | Tree entries => Return entries
  | _ => Raise TypeError
  end.

End pygit2.

(** ** Module-level functions of gitfs.py *)

(** [git_tree_to_direntries(tree)], collected by the caller's [list(...)] *)
Definition git_tree_to_direntries (tree : pygit2.Object) : result (list string) :=
  entries ← pygit2.iter_tree tree;
  Return (map pygit2.name entries).

(** [git_tree_find(tree, path)].  The [reduce] runs outside the [try]:
    what its lambda raises leaves the function. Only the last lookup is
    guarded, and only against [TypeError] and [KeyError]. *)
Definition git_tree_find (repo : pygit2.Repository) (tree : pygit2.Object)
    (path : string) : result (option pygit2.TreeEntry) :=
  let parts := split path "/" in
  tree ← reduce
    (fun (t : option pygit2.Object) part =>
       match t with
       | Some t' =>
           e ← pygit2.tree_getitem t' part;
           o ← pygit2.to_object repo e;
           Return (Some o)
       | None => Return None
       end)
    (but_last parts) (Some tree);
  last_part ← index_last parts;
  match tree with
  | None => Return None
  | Some tree' =>
      match pygit2.tree_getitem tree' last_part with
      | Return entry => Return (Some entry)
      | Raise TypeError | Raise KeyError => Return None
      | Raise e => Raise e
      end
  end.

(** ** The [GitFS] operations *)

Module GitFS.

Import pygit2.

(** Truth value of a list in a condition: non-empty. *)
Definition truthy {A} (l : list A) : bool :=
  match l with
  | [] => false
  | _ :: _ => true
  end.

(** The [refs] property: reference names minus the leading ['refs']. *)
Definition refs (repo : Repository) : list string :=
  map (fun r => str_from r 4)
      (filter (fun r => startswith r "refs/") (listall_references repo)).

Definition get_parent_ref (repo : Repository) (path : string) : result string :=
  let matches := filter (fun r => startswith path (r +:+ "/")) (refs repo) in
  if negb (length matches =? 1)%nat then Raise (FuseOSError ENOENT)
  else index matches 0.

Definition get_child_refs (repo : Repository) (path : string) : list string :=
  filter (fun r => startswith r path) (refs repo).

Definition get_reference_commit (repo : Repository) (ref_name : string)
  : result Object :=
  ref ← lookup_reference repo ("refs" +:+ ref_name);
  o ← ref_oid ref;
  getitem repo o.

Definition getattr (repo : Repository) (path : string) : result Stat :=
  if startswith path "/." then Raise (FuseOSError ENOENT)
  else
    let repo_stat := path_lstat repo in
    let default_stat := copy_stat repo_stat [] in
    if String.eqb path "/" || truthy (get_child_refs repo path)
    then Return default_stat
    else
      parent ← get_parent_ref repo path;
      commit ← get_reference_commit repo parent;
      tree ← commit_tree repo commit;
      entry ← git_tree_find repo tree
                (str_from path (String.length parent + 1));
      match entry with
      | None => Raise (FuseOSError ENOENT)
      | Some entry =>
          if Z.land (filemode entry) S_IFDIR =? S_IFDIR
          then Return default_stat
          else
            blob ← getitem repo (oid entry);
            data ← blob_data blob;
            let size := Z.of_nat (length data) in
            Return (copy_stat repo_stat
                      [(k_st_size, size); (k_st_mode, filemode entry)])
      end.

Definition readdir (repo : Repository) (path : string) : result (list string) :=
  let refs := refs repo in
  if String.eqb path "/" then
    let parts := map (fun r => split r "/") refs in
    first_parts ← mapM (fun p => index p 1) (filter (fun p => truthy p) parts);
    Return (list_frozenset first_parts)
  else
    let matching := filter (fun r => startswith r (path +:+ "/")) refs in
    if truthy matching then
      let path_len := (String.length path + 1)%nat in
      first_parts ←
        mapM (fun r => index (split_max (str_from r path_len) "/" 1) 0)
             (filter (fun r => (path_len <? String.length r)%nat) matching);
      Return (list_frozenset first_parts)
    else if bool_decide (path ∈ refs) then
      ref ← lookup_reference repo ("refs" +:+ path);
      ref ← resolve repo ref;
      o ← ref_oid ref;
      commit ← getitem repo o;
      tree ← commit_tree repo commit;
      git_tree_to_direntries tree
    else
      let matching := filter (fun r => startswith path (r +:+ "/")) refs in
      if (length matching =? 1)%nat then
        ref_name ← index matching 0;
        ref ← lookup_reference repo ("refs" +:+ ref_name);
        o ← ref_oid ref;
        commit ← getitem repo o;
        let file_path := str_from path (String.length ref_name + 1) in
        tree ← commit_tree repo commit;
        entry ← git_tree_find repo tree file_path;
        match entry with
        | None => Raise (FuseOSError ENOENT)
        | Some entry =>
            if Z.land (filemode entry) S_IFDIR =? S_IFDIR then
              subtree ← getitem repo (oid entry);
              git_tree_to_direntries subtree
            else Return []
        end
      else if (1 <? length matching)%nat then
        Raise (GitFSError "Duplicate refs matching path in readdir query: {0}"
                          matching)
      else Return [].

Definition open (path : string) (flags : Z) : result value :=
  if startswith path "/." then Return (VExc (FuseOSError ENOENT))
  else if negb (Z.land flags O_RDONLY =? O_RDONLY)
  then Return (VExc (FuseOSError EACCES))
  else Return (VInt 0).

Definition read (repo : Repository) (path : string) (size offset : Z)
  : result value :=
  if startswith path "/." then Return (VExc (FuseOSError ENOENT))
  else
    let refs := refs repo in
    let matching := filter (fun r => startswith path (r +:+ "/")) refs in
    if (length matching =? 1)%nat then
      ref_name ← index matching 0;
      ref ← lookup_reference repo ("refs" +:+ ref_name);
      o ← ref_oid ref;
      commit ← getitem repo o;
      let file_path := str_from path (String.length ref_name + 1) in
      tree ← commit_tree repo commit;
      entry ← git_tree_find repo tree file_path;
      match entry with
      | None => Return (VExc (FuseOSError ENOENT))
      | Some entry =>
          blob ← to_object repo entry;
          data ← blob_data blob;
          if (offset =? 0) && (Z.of_nat (length data) <=? size)
          then Return (VStr data)
          else Return (VStr (slice data offset (offset + size)))
      end
    else if (1 <? length matching)%nat then
      Raise (GitFSError "Duplicate refs matching path in read query: {0}"
                        matching)
    else Return (VExc (FuseOSError ENOENT)).

End GitFS.

(** ** Vocabulary of the properties *)

(** The permission bits [stat.S_IWUSR], [stat.S_IWGRP], [stat.S_IWOTH]. *)
Definition S_IWUSR : Z := 128.
Definition S_IWGRP : Z := 16.
Definition S_IWOTH : Z := 2.

(** The references whose name followed by ['/'] starts [path]: the list
    [get_parent_ref], [readdir] and [read] all call [matches] or
    [matching]. *)
Definition refs_above (repo : pygit2.Repository) (path : string) : list string :=
  filter (fun r => startswith path (r +:+ "/")) (GitFS.refs repo).

(** The references nested under [path]: the first [matching] of [readdir]. *)
Definition refs_below (repo : pygit2.Repository) (path : string) : list string :=
  filter (fun r => startswith r (path +:+ "/")) (GitFS.refs repo).

(** [path] lies inside the tree of the one reference [ref_name], and the
    rest of the path leads to [entry] in that reference's commit. *)
Definition resolves_to_entry (repo : pygit2.Repository) (path ref_name : string)
    (entry : pygit2.TreeEntry) : Prop :=
  refs_above repo path = [ref_name] /\
  exists commit tree,
    GitFS.get_reference_commit repo ref_name = Return commit /\
    pygit2.commit_tree repo commit = Return tree /\
    git_tree_find repo tree (str_from path (String.length ref_name + 1))
      = Return (Some entry).

(** [path] resolves to a blob entry holding [data]. *)
Definition resolves_to_blob (repo : pygit2.Repository) (path : string)
    (data : list Byte.byte) : Prop :=
  startswith path "/." = false /\
  exists ref_name entry,
    resolves_to_entry repo path ref_name entry /\
    pygit2.to_object repo entry = Return (pygit2.Blob data).

(** No character of [s] is the separator. *)
Fixpoint no_slash (s : string) : bool :=
  match s with
  | EmptyString => true
  | String c s' => negb (Ascii.eqb c "/") && no_slash s'
  end.

(** [seg] is the first path segment of the reference name [r]: what
    stands between the leading slash and the next one (or the end). *)
Definition first_segment (r seg : string) : Prop :=
  no_slash seg = true /\
  (r = "/" +:+ seg \/ exists rest, r = "/" +:+ seg +:+ "/" +:+ rest).

(** The text between the leading slash of a reference name and the next
    slash: what [p[1]] is for [p = r.split('/')]. *)
Definition head_segment (r : string) : string :=
  match split (str_from r 1) "/" with
  | h :: _ => h
  | [] => ""
  end.

(** [read] with the special case for a whole-content request removed. *)
Definition read_without_fast_path (repo : pygit2.Repository) (path : string)
    (size offset : Z) : result value :=
  if startswith path "/." then Return (VExc (FuseOSError ENOENT))
  else
    let refs := GitFS.refs repo in
    let matching := filter (fun r => startswith path (r +:+ "/")) refs in
    if (length matching =? 1)%nat then
      ref_name ← index matching 0;
      ref ← pygit2.lookup_reference repo ("refs" +:+ ref_name);
      o ← pygit2.ref_oid ref;
      commit ← pygit2.getitem repo o;
      let file_path := str_from path (String.length ref_name + 1) in
      tree ← pygit2.commit_tree repo commit;
      entry ← git_tree_find repo tree file_path;
      match entry with
      | None => Return (VExc (FuseOSError ENOENT))
      | Some entry =>
          blob ← pygit2.to_object repo entry;
          data ← pygit2.blob_data blob;
          Return (VStr (slice data offset (offset + size)))
      end
    else if (1 <? length matching)%nat then
      Raise (GitFSError "Duplicate refs matching path in read query: {0}"
                        matching)
    else Return (VExc (FuseOSError ENOENT)).

(** ** Sample repositories *)

Module Samples.

Import pygit2.

(** What [os.lstat] reports for the repository directory: mode
    [drwxr-xr-x], a real inode number. *)
Definition dir_stat : Stat := mkStat 16877 1234 5 2 1000 1000 4096 11 12 13.

Definition hello : list Byte.byte := list_byte_of_string "hello".

(** One commit whose tree holds [README] and [src/main.py]. *)
Definition store : gmap Oid Object :=
  list_to_map
    [(1%N, Commit 2%N);
     (2%N, Tree [mkEntry "README" 33188 3%N; mkEntry "src" 16384 4%N]);
     (3%N, Blob hello);
     (4%N, Tree [mkEntry "main.py" 33261 3%N])].

(** References [heads/main], [heads/dev] and [tags/v1]. *)
Definition demo : Repository :=
  mkRepo dir_stat
    [("refs/heads/main", Direct 1%N); ("refs/tags/v1", Direct 1%N);
     ("refs/heads/dev", Direct 1%N)]
    store.

(** The single reference [heads/master]. *)
Definition only_master : Repository :=
  mkRepo dir_stat [("refs/heads/master", Direct 1%N)] store.

(** One reference's name is a directory prefix of the others'. *)
Definition nested : Repository :=
  mkRepo dir_stat
    [("refs/heads/foo", Direct 1%N); ("refs/heads/foo/bar", Direct 1%N);
     ("refs/heads/foo/bar/baz/qux", Direct 1%N)]
    store.

(** A reference table holding names whose first segment begins with a
    dot, one a directory prefix of the other. *)
Definition dotted : Repository :=
  mkRepo dir_stat [("refs/.x", Direct 1%N); ("refs/.x/y", Direct 1%N)] store.

End Samples.

(** ** Tree navigation as the specification words it *)

(** The entry called [part] in [t], when [t] is a tree that has one. *)
Definition entry_named (t : pygit2.Object) (part : string)
    : option pygit2.TreeEntry :=
  match t with
  | pygit2.Tree entries =>
      List.find (fun e => String.eqb (pygit2.name e) part) entries
  | _ => None
  end.

(** The lookup without exceptions: every segment but the last must lead
    to a subtree, anything else is absence; the last segment is looked up
    in the tree reached. *)
Fixpoint find_segments (repo : pygit2.Repository) (t : pygit2.Object)
    (parts : list string) : option pygit2.TreeEntry :=
  match parts with
  | [] => None
  | part :: rest =>
      match rest with
      | [] => entry_named t part
      | _ :: _ =>
          match entry_named t part with
          | Some e =>
              match pygit2.objects repo !! pygit2.oid e with
              | Some o => find_segments repo o rest
              | None => None
              end
          | None => None
          end
      end
  end.

Definition find_total (repo : pygit2.Repository) (tree : pygit2.Object)
    (path : string) : option pygit2.TreeEntry :=
  find_segments repo tree (split path "/").

(** ** Vocabulary of the further properties *)

(** The function [reduce] folds over the directory segments in
    [git_tree_find]: one step down from the tree reached so far. *)
Definition descend (repo : pygit2.Repository) (t : option pygit2.Object)
    (part : string) : result (option pygit2.Object) :=
  match t with
  | Some t' =>
      e ← pygit2.tree_getitem t' part;
      o ← pygit2.to_object repo e;
      Return (Some o)
  | None => Return None
  end.

(** The test both [getattr] and [readdir] apply to a tree entry:
    [entry.filemode & stat.S_IFDIR == stat.S_IFDIR]. *)
Definition is_dir_entry (e : pygit2.TreeEntry) : bool :=
  Z.land (pygit2.filemode e) S_IFDIR =? S_IFDIR.

(** What [getattr] calls [default_stat]. *)
Definition default_stat (repo : pygit2.Repository) : Stat :=
  copy_stat (pygit2.path_lstat repo) [].

(** The text of [r] between position [len(path) + 1] and the next slash:
    what [r[path_len:].split('/', 1)[0]] is in [readdir]. *)
Definition next_segment (path r : string) : string :=
  match split (str_from r (String.length path + 1)) "/" with
  | h :: _ => h
  | [] => ""
  end.

(** [seg] is the path segment of the reference name [r] right below
    [path]: [r] is [path], a slash, [seg], and then ends or goes on with
    a slash. A name that ends right after the slash has no segment. *)
Definition segment_below (path r seg : string) : Prop :=
  no_slash seg = true /\
  ((seg <> "" /\ r = path +:+ "/" +:+ seg) \/
   exists rest, r = path +:+ "/" +:+ seg +:+ "/" +:+ rest).

(** Whether an exception is a [FuseOSError], the one exception FUSE
    turns into an error number for the caller. *)
Definition is_FuseOSError (e : exception) : bool :=
  match e with
  | FuseOSError _ => true
  | _ => false
  end.

(** * Properties *)

Import pygit2 GitFS.

(** ** The Python primitives *)

Section primitives.

Lemma startswith_app s p :
  startswith s p = true <-> exists rest, s = p +:+ rest.
Proof.
  revert s. induction p as [|a p IH]; intros s; simpl.
  - split; [intros _; by exists s | done].
  - destruct s as [|b s].
    + split; [done | intros [rest H]; discriminate].
    + destruct (Ascii.eqb a b) eqn:E.
      * apply Ascii.eqb_eq in E as ->. rewrite IH. split.
        -- intros [rest ->]. by exists rest.
        -- intros [rest H]. injection H as ->. by exists rest.
      * apply Ascii.eqb_neq in E. split; [done|].
        intros [rest H]. injection H as H1 H2. congruence.
Qed.

Lemma slice_bound_nonneg n i : 0 <= i -> slice_bound n i = Z.min i n.
Proof. intros Hi. unfold slice_bound. destruct (Z.ltb_spec i 0); [lia | done]. Qed.

(** For non-negative bounds a slice is a [take] of a [drop]: the
    sub-range clipped to the sequence. *)
Lemma slice_take_drop {A} (l : list A) (i sz : Z) :
  0 <= i -> 0 <= sz ->
  slice l i (i + sz) = take (Z.to_nat sz) (drop (Z.to_nat i) l).
Proof.
  intros Hi Hsz. unfold slice.
  rewrite !slice_bound_nonneg by lia.
  set (n := Z.of_nat (length l)).
  destruct (Z.le_gt_cases n i) as [Hge | Hlt].
  - rewrite Z.min_r by lia. rewrite Z.min_r by lia.
    rewrite Z.sub_diag. simpl. rewrite take_0.
    rewrite (drop_ge l (Z.to_nat i)) by (subst n; lia). by rewrite take_nil.
  - rewrite (Z.min_l i n) by lia.
    destruct (Z.le_gt_cases (i + sz) n) as [Hin | Hout].
    + rewrite Z.min_l by lia. f_equal. lia.
    + rewrite Z.min_r by lia.
      rewrite !take_ge; [done | |]; rewrite length_drop; subst n; lia.
Qed.

Lemma slice_whole {A} (l : list A) (sz : Z) :
  Z.of_nat (length l) <= sz -> slice l 0 (0 + sz) = l.
Proof.
  intros Hsz. rewrite slice_take_drop by lia. simpl.
  rewrite drop_0. apply take_ge. lia.
Qed.

Lemma slice_past_end {A} (l : list A) (i sz : Z) :
  Z.of_nat (length l) <= i -> 0 <= sz -> slice l i (i + sz) = [].
Proof.
  intros Hi Hsz. rewrite slice_take_drop by lia.
  rewrite drop_ge by lia. apply take_nil.
Qed.

Lemma mask_clears_write_bits m :
  Z.land (Z.land m (Z.lnot write_bits)) write_bits = 0.
Proof.
  rewrite <- Z.land_assoc, (Z.land_comm (Z.lnot _)), Z.land_lnot_diag.
  apply Z.land_0_r.
Qed.

End primitives.

(** ** [copy_stat] *)

Section copy_stat_facts.

Lemma copy_stat_ino st kwargs : st_ino (copy_stat st kwargs) = 0.
Proof. reflexivity. Qed.

Lemma copy_stat_mode st kwargs :
  Z.land (st_mode (copy_stat st kwargs)) write_bits = 0.
Proof. unfold copy_stat. simpl. apply mask_clears_write_bits. Qed.

(** The permission bits [S_IWUSR], [S_IWGRP], [S_IWOTH] are bits 7, 4
    and 1 of the mode. *)
Lemma write_bits_testbit m :
  Z.land m write_bits = 0 ->
  Z.testbit m 7 = false /\ Z.testbit m 4 = false /\ Z.testbit m 1 = false.
Proof.
  intros H.
  assert (Hb : forall k, Z.testbit write_bits k = true -> Z.testbit m k = false).
  { intros k Hk. assert (Hz : Z.testbit (Z.land m write_bits) k = false)
      by (rewrite H; apply Z.bits_0).
    rewrite Z.land_spec, Hk, andb_true_r in Hz. exact Hz. }
  repeat split; apply Hb; reflexivity.
Qed.

End copy_stat_facts.

(** ** Results: inversion of sequenced calls *)

Section results.

Context {A B : Type}.

Lemma bind_Return_inv (m : result A) (f : A -> result B) (b : B) :
  m ≫= f = Return b -> exists a, m = Return a /\ f a = Return b.
Proof. destruct m as [a | e]; [by exists a | discriminate]. Qed.

Lemma bind_Return (a : A) (f : A -> result B) : Return a ≫= f = f a.
Proof. reflexivity. Qed.

Lemma bind_Raise (e : exception) (f : A -> result B) : Raise e ≫= f = Raise e.
Proof. reflexivity. Qed.

End results.

(** Splits a hypothesis [m ≫= f = Return b] into its successive calls. *)
Ltac invert_binds H :=
  repeat
    (let a := fresh "a" in
     let Ha := fresh "Ha" in
     apply bind_Return_inv in H as (a & Ha & H)).

(** ** Attributes (C6) *)

Section attributes.

Variable repo : Repository.

(** Whatever [getattr] returns came out of [copy_stat]. *)
Lemma getattr_is_copy_stat path st :
  getattr repo path = Return st ->
  exists kwargs, st = copy_stat (path_lstat repo) kwargs.
Proof.
  unfold getattr. intros H.
  destruct (startswith path "/."); [discriminate |].
  destruct (String.eqb path "/" || truthy (get_child_refs repo path)).
  { injection H as <-. by eexists. }
  invert_binds H.
  destruct a2 as [entry |]; [| discriminate].
  destruct (Z.land (filemode entry) S_IFDIR =? S_IFDIR).
  { injection H as <-. by eexists. }
  invert_binds H. injection H as <-. by eexists.
Qed.

End attributes.

(** C6. Every attribute record the attribute query returns, whatever the
    path denotes (root, namespace directory, reference, tree directory or
    blob), has inode number zero and the owner, group and other write
    permission bits cleared. *)
Theorem getattr_no_write_bits_no_inode repo path st :
  getattr repo path = Return st ->
  st_ino st = 0 /\
  Z.land (st_mode st) S_IWUSR = 0 /\
  Z.land (st_mode st) S_IWGRP = 0 /\
  Z.land (st_mode st) S_IWOTH = 0 /\
  Z.land (st_mode st) write_bits = 0.
Proof.
  intros H. apply getattr_is_copy_stat in H as [kwargs ->].
  pose proof (copy_stat_mode (path_lstat repo) kwargs) as Hm.
  destruct (write_bits_testbit _ Hm) as (H7 & H4 & H1).
  split; [apply copy_stat_ino |].
  repeat split; try exact Hm; apply Z.bits_inj'; intros n Hn;
    rewrite Z.land_spec, Z.bits_0.
  - destruct (Z.eq_dec n 7) as [-> | Hne]; [by rewrite H7 |].
    replace (Z.testbit S_IWUSR n) with false; [apply andb_false_r |].
    symmetry. change S_IWUSR with (2 ^ 7). apply Z.pow2_bits_false. lia.
  - destruct (Z.eq_dec n 4) as [-> | Hne]; [by rewrite H4 |].
    replace (Z.testbit S_IWGRP n) with false; [apply andb_false_r |].
    symmetry. change S_IWGRP with (2 ^ 4). apply Z.pow2_bits_false. lia.
  - destruct (Z.eq_dec n 1) as [-> | Hne]; [by rewrite H1 |].
    replace (Z.testbit S_IWOTH n) with false; [apply andb_false_r |].
    symmetry. change S_IWOTH with (2 ^ 1). apply Z.pow2_bits_false. lia.
Qed.

(** The attributes of an executable blob. *)
Lemma getattr_no_write_bits_no_inode_witness :
  getattr Samples.demo "/heads/main/src/main.py"
    = Return (mkStat 33133 0 5 2 1000 1000 5 11 12 13) /\
  st_ino (mkStat 33133 0 5 2 1000 1000 5 11 12 13) = 0 /\
  Z.land 33133 S_IWUSR = 0.
Proof.
  assert (H : getattr Samples.demo "/heads/main/src/main.py"
              = Return (mkStat 33133 0 5 2 1000 1000 5 11 12 13))
    by (vm_compute; reflexivity).
  split; [exact H |].
  destruct (getattr_no_write_bits_no_inode _ _ _ H) as (Hi & Hu & _).
  split; [exact Hi | exact Hu].
Defined.

(** ** Content reads (C4, C10) *)

Section reads.

Variable repo : Repository.

(** A unique match is what [matching[0]] picks. *)
Lemma index_singleton {A} (x : A) : index [x] 0 = Return x.
Proof. reflexivity. Qed.

(** [read] on a path that resolves to a blob. *)
Lemma read_blob path data size offset :
  resolves_to_blob repo path data ->
  read repo path size offset =
    if (offset =? 0) && (Z.of_nat (length data) <=? size)
    then Return (VStr data)
    else Return (VStr (slice data offset (offset + size))).
Proof.
  intros (Hdot & ref_name & entry & (Habove & commit & tree & Hc & Ht & Hf) & Hobj).
  unfold read. rewrite Hdot.
  unfold refs_above in Habove. rewrite Habove. simpl length. simpl Nat.eqb. cbv iota.
  rewrite index_singleton, bind_Return.
  unfold get_reference_commit in Hc.
  destruct (lookup_reference repo ("refs" +:+ ref_name)) as [ref | e];
    [| discriminate].
  rewrite bind_Return in Hc. rewrite bind_Return.
  destruct (ref_oid ref) as [o | e]; [| discriminate].
  rewrite bind_Return in Hc. rewrite bind_Return.
  rewrite Hc, bind_Return, Ht, bind_Return, Hf, bind_Return.
  rewrite Hobj, bind_Return. reflexivity.
Qed.

End reads.

(** C10. The special case of [read] for a request starting at offset 0
    and at least as long as the content returns what the general slice
    returns: removing it changes the result for no input. *)
Theorem read_fast_path_redundant repo path size offset :
  read repo path size offset = read_without_fast_path repo path size offset.
Proof.
  unfold read, read_without_fast_path.
  destruct (startswith path "/."); [reflexivity |].
  cbv zeta.
  destruct (length _ =? 1)%nat; [| reflexivity].
  destruct (index _ 0) as [ref_name | e]; [| reflexivity].
  rewrite !bind_Return.
  destruct (lookup_reference repo _) as [ref | e]; [| reflexivity].
  rewrite !bind_Return.
  destruct (ref_oid ref) as [o | e]; [| reflexivity].
  rewrite !bind_Return.
  destruct (getitem repo o) as [commit | e]; [| reflexivity].
  rewrite !bind_Return.
  destruct (commit_tree repo commit) as [tree | e]; [| reflexivity].
  rewrite !bind_Return.
  destruct (git_tree_find repo tree _) as [[entry |] | e]; try reflexivity.
  rewrite !bind_Return.
  destruct (to_object repo entry) as [blob | e]; [| reflexivity].
  rewrite !bind_Return.
  destruct (blob_data blob) as [data | e]; [| reflexivity].
  rewrite !bind_Return.
  destruct (Z.eqb_spec offset 0) as [-> | Hne]; [| reflexivity].
  destruct (Z.leb_spec (Z.of_nat (length data)) size) as [Hle | Hgt];
    [| reflexivity].
  simpl andb. cbv iota. by rewrite slice_whole.
Qed.

(** C4. For a path resolving to a blob, [read] returns the bytes of the
    content from [offset] up to [offset + size], clipped to the content:
    the whole content when [offset] is 0 and [size] covers it, nothing
    (and no error) from the end of the content on. *)
Theorem read_returns_clamped_range repo path data size offset :
  resolves_to_blob repo path data ->
  0 <= offset -> 0 <= size ->
  read repo path size offset
    = Return (VStr (take (Z.to_nat size) (drop (Z.to_nat offset) data))) /\
  (offset = 0 -> Z.of_nat (length data) <= size ->
     read repo path size offset = Return (VStr data)) /\
  (Z.of_nat (length data) <= offset ->
     read repo path size offset = Return (VStr [])).
Proof.
  intros Hres Hoff Hsize.
  assert (Hread : read repo path size offset
            = Return (VStr (slice data offset (offset + size)))).
  { rewrite (read_blob repo path data size offset Hres).
    destruct (Z.eqb_spec offset 0) as [-> | Hne]; [| reflexivity].
    destruct (Z.leb_spec (Z.of_nat (length data)) size) as [Hle | Hgt];
      [| reflexivity].
    simpl andb. cbv iota. by rewrite slice_whole. }
  rewrite Hread. split; [| split].
  - by rewrite slice_take_drop.
  - intros -> Hle. by rewrite slice_whole.
  - intros Hge. by rewrite slice_past_end.
Qed.

(** Three bytes of [README] from offset 1. *)
Lemma read_returns_clamped_range_witness :
  resolves_to_blob Samples.demo "/heads/main/README" Samples.hello /\
  read Samples.demo "/heads/main/README" 3 1
    = Return (VStr (take 3 (drop 1 Samples.hello))).
Proof.
  assert (Hres : resolves_to_blob Samples.demo "/heads/main/README" Samples.hello).
  { split; [reflexivity |].
    exists "/heads/main", (mkEntry "README" 33188 3%N).
    split; [| reflexivity].
    split; [reflexivity |].
    exists (Commit 2%N),
      (Tree [mkEntry "README" 33188 3%N; mkEntry "src" 16384 4%N]).
    repeat split; vm_compute; reflexivity. }
  split; [exact Hres |].
  exact (proj1 (read_returns_clamped_range Samples.demo "/heads/main/README"
                  Samples.hello 3 1 Hres ltac:(lia) ltac:(lia))).
Defined.

(** ** Opening (C7) *)

Section opening.

(** [O_RDONLY] is 0, so masking with it always gives [O_RDONLY]: the
    access test of [open] rejects no flags at all. *)
Lemma open_access_test_never_fires flags :
  negb (Z.land flags O_RDONLY =? O_RDONLY) = false.
Proof. unfold O_RDONLY. by rewrite Z.land_0_r. Qed.

Lemma open_not_hidden path flags :
  startswith path "/." = false -> open path flags = Return (VInt 0).
Proof.
  intros H. unfold open. by rewrite H, open_access_test_never_fires.
Qed.

(** A hidden path gets the error object handed back, not raised. *)
Lemma open_hidden path flags :
  startswith path "/." = true ->
  open path flags = Return (VExc (FuseOSError ENOENT)).
Proof. intros H. unfold open. by rewrite H. Qed.

(** A path with attributes is not hidden. *)
Lemma getattr_Return_not_hidden repo path st :
  getattr repo path = Return st -> startswith path "/." = false.
Proof.
  unfold getattr. by destruct (startswith path "/.").
Qed.

(** Opening for writing goes through as well. *)
Example open_for_writing :
  open "/heads/main/README" O_WRONLY = Return (VInt 0) /\
  open "/heads/main/README" O_RDWR = Return (VInt 0).
Proof. split; reflexivity. Qed.

End opening.

(** C7, as stated, fails: a read-only [open] of a path that resolves to
    nothing (no attributes, nothing to list) succeeds. *)
Lemma open_missing_path_succeeds :
  getattr Samples.demo "/no/such/file" = Raise (FuseOSError ENOENT) /\
  open "/no/such/file" O_RDONLY = Return (VInt 0).
Proof. split; vm_compute; reflexivity. Qed.

(** C7, amended. A read-only [open] succeeds with handle 0 on every path
    that does not begin with ['/.'], whether or not the path resolves; in
    particular on every path the attribute query accepts. *)
Theorem open_read_only_succeeds repo path flags :
  Z.land flags O_ACCMODE = O_RDONLY ->
  (startswith path "/." = false -> open path flags = Return (VInt 0)) /\
  (forall st, getattr repo path = Return st -> open path flags = Return (VInt 0)).
Proof.
  intros _. split.
  - apply open_not_hidden.
  - intros st Hst. apply open_not_hidden.
    by apply getattr_Return_not_hidden in Hst.
Qed.

(** [O_RDONLY | O_LARGEFILE] on a file of the sample repository. *)
Lemma open_read_only_succeeds_witness :
  Z.land 32768 O_ACCMODE = O_RDONLY /\
  open "/heads/main/README" 32768 = Return (VInt 0).
Proof.
  split; [reflexivity |].
  exact (proj1 (open_read_only_succeeds Samples.demo "/heads/main/README"
                  32768 eq_refl) eq_refl).
Defined.

(** ** Namespace directories (C2) *)

(** C2 at the failing input: with the single reference ['/heads/master'],
    no reference name starts with ['/heads/ma/'], yet [getattr] hands
    ['/heads/ma'] the directory attributes, because [get_child_refs]
    tests the bare prefix; [readdir], which appends the slash, finds
    nothing under it. *)
Theorem getattr_prefix_inside_segment :
  refs Samples.only_master = ["/heads/master"] /\
  refs_below Samples.only_master "/heads/ma" = [] /\
  get_child_refs Samples.only_master "/heads/ma" = ["/heads/master"] /\
  getattr Samples.only_master "/heads/ma"
    = Return (copy_stat Samples.dir_stat []) /\
  Z.land (st_mode (copy_stat Samples.dir_stat [])) S_IFDIR = S_IFDIR /\
  readdir Samples.only_master "/heads/ma" = Return [].
Proof. repeat split; vm_compute; reflexivity. Qed.

(** The general shape of the defect: any non-hidden path that is a plain
    string prefix of a reference name gets the directory attributes. *)
Lemma getattr_of_string_prefix repo path r :
  startswith path "/." = false ->
  r ∈ refs repo -> startswith r path = true ->
  getattr repo path = Return (copy_stat (path_lstat repo) []).
Proof.
  intros Hdot Hr Hp. unfold getattr. rewrite Hdot.
  assert (Hin : r ∈ get_child_refs repo path).
  { unfold get_child_refs. apply list_elem_of_filter. split; [| done].
    by rewrite Hp. }
  destruct (get_child_refs repo path); [by apply elem_of_nil in Hin |].
  simpl. by rewrite orb_true_r.
Qed.

(** ** Hidden paths (C5) *)

Section hidden.

Variable repo : Repository.

Lemma getattr_hidden path :
  startswith path "/." = true -> getattr repo path = Raise (FuseOSError ENOENT).
Proof. intros H. unfold getattr. by rewrite H. Qed.

Lemma read_hidden path size offset :
  startswith path "/." = true ->
  read repo path size offset = Return (VExc (FuseOSError ENOENT)).
Proof. intros H. unfold read. by rewrite H. Qed.

End hidden.

(** C5 at the failing input: [readdir] has no test for a leading dot and
    lists ['/.git'] as an empty directory; [open] and [read] hand the
    error object back as their value instead of raising it. Only
    [getattr] raises. *)
Theorem readdir_hidden_path_lists :
  startswith "/.git" "/." = true /\
  readdir Samples.demo "/.git" = Return [] /\
  getattr Samples.demo "/.git" = Raise (FuseOSError ENOENT) /\
  open "/.git" O_RDONLY = Return (VExc (FuseOSError ENOENT)) /\
  read Samples.demo "/.git" 4096 0 = Return (VExc (FuseOSError ENOENT)).
Proof. repeat split; vm_compute; reflexivity. Qed.

(** ** Splitting paths into segments *)

Section splitting.

Lemma split_not_nil s sep : split s sep <> [].
Proof.
  destruct s as [| c s]; simpl; [done |].
  destruct (Ascii.eqb c sep); [done |]. by destruct (split s sep).
Qed.

Lemma split_truthy s sep : truthy (split s sep) = true.
Proof. pose proof (split_not_nil s sep). by destruct (split s sep). Qed.

Lemma split_segment h : no_slash h = true -> split h "/" = [h].
Proof.
  induction h as [| c h IH]; simpl; [done |].
  intros [Hc Hh]%andb_prop. apply negb_true_iff in Hc. rewrite Hc.
  by rewrite (IH Hh).
Qed.

Lemma split_cons_segment h rest :
  no_slash h = true ->
  split (h +:+ "/" +:+ rest) "/" = h :: split rest "/".
Proof.
  induction h as [| c h IH]; simpl; [done |].
  intros [Hc Hh]%andb_prop. apply negb_true_iff in Hc. rewrite Hc.
  by rewrite (IH Hh).
Qed.

(** What [split] gives first: the text before the first slash. *)
Lemma split_head s :
  exists h t,
    split s "/" = h :: t /\ no_slash h = true /\
    ((t = [] /\ s = h) \/
     (exists rest, s = h +:+ "/" +:+ rest /\ t = split rest "/")).
Proof.
  induction s as [| c s (h & t & Hs & Hh & Hcase)].
  - exists "", []. repeat split; auto.
  - simpl. destruct (Ascii.eqb c "/") eqn:Hc.
    + apply Ascii.eqb_eq in Hc as ->.
      exists "", (split s "/"). repeat split. right. by exists s.
    + rewrite Hs. exists (String c h), t. split; [done |]. split.
      * simpl. by rewrite Hc.
      * destruct Hcase as [[-> ->] | (rest & -> & ->)]; [by left |].
        right. by exists rest.
Qed.

Lemma no_slash_app_inv h1 h2 rest1 rest2 :
  no_slash h1 = true -> no_slash h2 = true ->
  h1 +:+ "/" +:+ rest1 = h2 +:+ "/" +:+ rest2 -> h1 = h2.
Proof.
  intros H1 H2 Heq.
  assert (Hs : split (h1 +:+ "/" +:+ rest1) "/" = split (h2 +:+ "/" +:+ rest2) "/")
    by (by rewrite Heq).
  rewrite !split_cons_segment in Hs by done. congruence.
Qed.

End splitting.

(** ** Tree navigation (C3) *)

Section navigation.

Variable repo : Repository.

Lemma tree_getitem_entry_named t part :
  tree_getitem t part =
    match entry_named t part with
    | Some e => Return e
    | None => match t with Tree _ => Raise KeyError | _ => Raise TypeError end
    end.
Proof. destruct t; simpl; try reflexivity. Qed.

(** A path of one segment: the guarded lookup, absence included. *)
Lemma git_tree_find_one_segment t part :
  no_slash part = true ->
  git_tree_find repo t part = Return (entry_named t part).
Proof.
  intros Hp. unfold git_tree_find. rewrite (split_segment _ Hp). simpl.
  rewrite tree_getitem_entry_named.
  destruct (entry_named t part); [reflexivity |]. by destruct t.
Qed.

(** A first segment that the tree lacks, with more path after it: the
    [KeyError] of the lambda inside [reduce] is not caught. *)
Lemma git_tree_find_missing_intermediate entries part rest :
  no_slash part = true ->
  entry_named (Tree entries) part = None ->
  git_tree_find repo (Tree entries) (part +:+ "/" +:+ rest) = Raise KeyError.
Proof.
  intros Hp Hnone. unfold git_tree_find.
  rewrite (split_cons_segment _ _ Hp).
  pose proof (split_not_nil rest "/") as Hne.
  destruct (split rest "/") as [| q qs]; [done |].
  unfold but_last. cbn [removelast reduce].
  rewrite tree_getitem_entry_named, Hnone. reflexivity.
Qed.

(** When [git_tree_find] does return, it returns what the lookup
    without exceptions gives. *)
Lemma git_tree_find_segments parts :
  parts <> [] ->
  forall t r,
    (tree ← reduce
       (fun (t : option Object) part =>
          match t with
          | Some t' =>
              e ← tree_getitem t' part;
              o ← to_object repo e;
              Return (Some o)
          | None => Return None
          end)
       (but_last parts) (Some t);
     last_part ← index_last parts;
     match tree with
     | None => Return None
     | Some tree' =>
         match tree_getitem tree' last_part with
         | Return entry => Return (Some entry)
         | Raise TypeError | Raise KeyError => Return None
         | Raise e => Raise e
         end
     end) = Return r ->
    r = find_segments repo t parts.
Proof.
  induction parts as [| p parts IH]; [done |]. intros _ t r.
  destruct parts as [| q parts].
  - simpl. rewrite tree_getitem_entry_named.
    destruct (entry_named t p); [congruence |].
    destruct t; congruence.
  - change (but_last (p :: q :: parts)) with (p :: but_last (q :: parts)).
    change (index_last (p :: q :: parts)) with (index_last (q :: parts)).
    cbn [reduce]. rewrite tree_getitem_entry_named.
    change (find_segments repo t (p :: q :: parts)) with
      (match entry_named t p with
       | Some e => match objects repo !! oid e with
                   | Some o => find_segments repo o (q :: parts)
                   | None => None
                   end
       | None => None
       end).
    destruct (entry_named t p) as [e |].
    + rewrite bind_Return. unfold to_object, getitem.
      destruct (objects repo !! oid e) as [o |]; [| discriminate].
      rewrite bind_Return. apply IH. done.
    + destruct t; discriminate.
Qed.

Lemma git_tree_find_Return t path r :
  git_tree_find repo t path = Return r -> r = find_total repo t path.
Proof.
  intros H. apply git_tree_find_segments; [apply split_not_nil | exact H].
Qed.

End navigation.

(** C3 at the failing inputs: in the tree holding the blob [README] and
    the subtree [src], a missing intermediate segment raises [KeyError]
    and a blob met before the last intermediate segment raises
    [TypeError], where the lookup without exceptions reports absence. A
    missing last segment, and a blob as the last intermediate segment,
    do give absence. *)
Theorem git_tree_find_raises_on_missing_intermediate :
  let root := Tree [mkEntry "README" 33188 3%N; mkEntry "src" 16384 4%N] in
  git_tree_find Samples.demo root "docs/index.txt" = Raise KeyError /\
  find_total Samples.demo root "docs/index.txt" = None /\
  git_tree_find Samples.demo root "README/a/b" = Raise TypeError /\
  find_total Samples.demo root "README/a/b" = None /\
  git_tree_find Samples.demo root "src/nothing" = Return None /\
  git_tree_find Samples.demo root "README/a" = Return None /\
  git_tree_find Samples.demo root "src/main.py"
    = Return (Some (mkEntry "main.py" 33261 3%N)).
Proof. repeat split; vm_compute; reflexivity. Qed.

(** ** Reference names *)

Section reference_names.

Variable repo : Repository.

Lemma str_from_refs_prefix rest :
  str_from ("refs/" +:+ rest) 4 = String "/" rest.
Proof. reflexivity. Qed.

(** Every name in [refs] begins with a slash: it is what follows
    ['refs'] in a name that starts with ['refs/']. *)
Lemma refs_leading_slash r : r ∈ refs repo -> exists r', r = String "/" r'.
Proof.
  unfold refs. intros (full & -> & Hin)%list_elem_of_fmap.
  apply list_elem_of_filter in Hin as [Hp _].
  apply Is_true_true, startswith_app in Hp as [rest ->].
  by exists rest.
Qed.

(** A path with a reference above it is not the root. *)
Lemma refs_above_not_root path r :
  r ∈ refs_above repo path -> String.eqb path "/" = false.
Proof.
  unfold refs_above. intros [Hp Hr]%list_elem_of_filter.
  apply refs_leading_slash in Hr as [r' ->].
  apply Is_true_true, startswith_app in Hp as [rest ->].
  apply String.eqb_neq. simpl. intros H. injection H as H.
  by destruct r'.
Qed.

End reference_names.

(** ** Listing the root (C9) *)

Section root_listing.

Variable repo : Repository.

Lemma index_1_of_ref r :
  r ∈ refs repo -> index (split r "/") 1 = Return (head_segment r).
Proof.
  intros [r' ->]%refs_leading_slash. unfold head_segment. simpl.
  pose proof (split_not_nil r' "/") as Hne.
  destruct (split r' "/") as [| h t]; [by destruct Hne | reflexivity].
Qed.

Lemma head_segment_first r :
  r ∈ refs repo -> first_segment r (head_segment r).
Proof.
  intros [r' ->]%refs_leading_slash. unfold head_segment, first_segment.
  simpl str_from.
  destruct (split_head r') as (h & t & -> & Hh & Hcase).
  split; [done |].
  destruct Hcase as [[_ ->] | (rest & -> & _)]; [by left |].
  right. by exists rest.
Qed.

Lemma first_segment_unique r seg :
  first_segment r seg -> seg = head_segment r.
Proof.
  unfold first_segment, head_segment.
  intros [Hseg [-> | [rest ->]]].
  - change (str_from ("/" +:+ seg) 1) with seg.
    by rewrite (split_segment _ Hseg).
  - change (str_from ("/" +:+ seg +:+ "/" +:+ rest) 1)
      with (seg +:+ "/" +:+ rest).
    by rewrite (split_cons_segment _ _ Hseg).
Qed.

Lemma first_parts_of_refs (l : list string) :
  (forall r, r ∈ l -> r ∈ refs repo) ->
  mapM (fun p => index p 1) (map (fun r => split r "/") l)
    = Return (map head_segment l).
Proof.
  induction l as [| r l IH]; intros Hl; [reflexivity |].
  cbn [map mapM]. rewrite (index_1_of_ref r) by (apply Hl; left).
  rewrite bind_Return, IH by (intros y Hy; apply Hl; by right).
  reflexivity.
Qed.

Lemma filter_truthy_split (l : list string) :
  filter (fun p => truthy p) (map (fun r => split r "/") l)
    = map (fun r => split r "/") l.
Proof.
  induction l as [| r l IH]; [reflexivity |]. cbn [map].
  rewrite filter_cons_True by (by rewrite split_truthy). by rewrite IH.
Qed.

(** The root listing is the set of head segments of the names. *)
Lemma readdir_root :
  readdir repo "/" = Return (list_frozenset (map head_segment (refs repo))).
Proof.
  unfold readdir. simpl String.eqb. cbv iota zeta.
  rewrite filter_truthy_split, first_parts_of_refs by done.
  reflexivity.
Qed.

End root_listing.

(** C9. Listing the root returns, without duplicates, exactly the first
    path segments of the current reference names, however many names
    share one. *)
Theorem readdir_root_first_segments repo :
  exists names,
    readdir repo "/" = Return names /\
    NoDup names /\
    forall seg, seg ∈ names <-> exists r, r ∈ refs repo /\ first_segment r seg.
Proof.
  exists (list_frozenset (map head_segment (refs repo))).
  split; [apply readdir_root |]. unfold list_frozenset. split.
  - apply NoDup_elements.
  - intros seg. rewrite elem_of_elements, elem_of_list_to_set, list_elem_of_fmap.
    split.
    + intros (r & -> & Hr). exists r. split; [done |].
      by apply head_segment_first with (repo := repo).
    + intros (r & Hr & Hseg). exists r. split; [| done].
      by apply first_segment_unique.
Qed.

(** Three names, two first segments. *)
Example readdir_root_demo :
  exists names,
    readdir Samples.demo "/" = Return names /\ names ≡ₚ ["heads"; "tags"].
Proof. eexists. split; [vm_compute; reflexivity |]. apply Permutation_swap. Qed.

(** ** Directory listings below the references (C8, C1) *)

Section listings.

Variable repo : Repository.

(** [readdir] on a path that is neither the root, nor a namespace
    directory, nor a reference: the outcome is decided by the references
    above the path. *)
Lemma readdir_below_refs path :
  String.eqb path "/" = false ->
  refs_below repo path = [] ->
  path ∉ refs repo ->
  readdir repo path =
    let matching := refs_above repo path in
    if (length matching =? 1)%nat then
      ref_name ← index matching 0;
      commit ← get_reference_commit repo ref_name;
      tree ← commit_tree repo commit;
      entry ← git_tree_find repo tree
                (str_from path (String.length ref_name + 1));
      match entry with
      | None => Raise (FuseOSError ENOENT)
      | Some entry =>
          if Z.land (filemode entry) S_IFDIR =? S_IFDIR then
            subtree ← getitem repo (oid entry);
            git_tree_to_direntries subtree
          else Return []
      end
    else if (1 <? length matching)%nat then
      Raise (GitFSError "Duplicate refs matching path in readdir query: {0}"
                        matching)
    else Return [].
Proof.
  intros Hroot Hbelow Hnotref. unfold readdir. rewrite Hroot. cbv zeta.
  unfold refs_below in Hbelow. rewrite Hbelow. cbn [truthy].
  rewrite bool_decide_eq_false_2 by done.
  fold (refs_above repo path).
  destruct (length (refs_above repo path) =? 1)%nat; [| reflexivity].
  destruct (index (refs_above repo path) 0) as [ref_name | e]; [| reflexivity].
  rewrite !bind_Return. unfold get_reference_commit.
  destruct (lookup_reference repo _) as [ref | e]; [| reflexivity].
  rewrite !bind_Return.
  destruct (ref_oid ref) as [o | e]; [| reflexivity].
  rewrite !bind_Return.
  destruct (getitem repo o) as [commit | e]; reflexivity.
Qed.

(** A path inside one reference that leads to no entry: NotFound. *)
Lemma readdir_unresolved path ref_name commit tree :
  String.eqb path "/" = false ->
  refs_below repo path = [] ->
  path ∉ refs repo ->
  refs_above repo path = [ref_name] ->
  get_reference_commit repo ref_name = Return commit ->
  commit_tree repo commit = Return tree ->
  git_tree_find repo tree (str_from path (String.length ref_name + 1))
    = Return None ->
  readdir repo path = Raise (FuseOSError ENOENT).
Proof.
  intros Hroot Hbelow Hnotref Habove Hc Ht Hf.
  rewrite readdir_below_refs by done. cbv zeta. rewrite Habove.
  cbn [length Nat.eqb]. rewrite index_singleton, bind_Return.
  by rewrite Hc, bind_Return, Ht, bind_Return, Hf, bind_Return.
Qed.

(** [get_parent_ref] knows one outcome for no match and for many. *)
Lemma get_parent_ref_not_unique path :
  length (refs_above repo path) <> 1%nat ->
  get_parent_ref repo path = Raise (FuseOSError ENOENT).
Proof.
  intros Hlen. unfold get_parent_ref. fold (refs_above repo path).
  apply Nat.eqb_neq in Hlen. by rewrite Hlen.
Qed.

(** Two references above a path: the path is not the root. *)
Lemma ambiguous_not_root path :
  (1 < length (refs_above repo path))%nat -> String.eqb path "/" = false.
Proof.
  intros Hlen. destruct (refs_above repo path) as [| r l] eqn:E;
    [simpl in Hlen; lia |].
  apply (refs_above_not_root repo path r). rewrite E. left.
Qed.

End listings.

(** C8, as stated, fails: listing a path that resolves to a blob, and a
    path that no reference matches, returns the empty list. *)
Lemma readdir_of_file_and_of_nothing :
  resolves_to_entry Samples.demo "/heads/main/README" "/heads/main"
    (mkEntry "README" 33188 3%N) /\
  Z.land 33188 S_IFDIR <> S_IFDIR /\
  readdir Samples.demo "/heads/main/README" = Return [] /\
  refs_above Samples.demo "/nothing/here" = [] /\
  refs_below Samples.demo "/nothing/here" = [] /\
  readdir Samples.demo "/nothing/here" = Return [].
Proof.
  split.
  { split; [reflexivity |].
    exists (Commit 2%N),
      (Tree [mkEntry "README" 33188 3%N; mkEntry "src" 16384 4%N]).
    repeat split; vm_compute; reflexivity. }
  repeat split; try (vm_compute; reflexivity).
  vm_compute. discriminate.
Qed.

(** C8, amended. For a path that is neither the root, nor a namespace
    directory, nor a reference: when it lies inside one reference and
    leads to an entry that is not a directory, and when no reference lies
    above it at all, [readdir] returns the empty list; it raises NotFound
    when it lies inside one reference and leads to no entry. *)
Theorem readdir_file_or_unmatched repo path :
  String.eqb path "/" = false ->
  refs_below repo path = [] ->
  path ∉ refs repo ->
  (forall ref_name entry,
     resolves_to_entry repo path ref_name entry ->
     Z.land (filemode entry) S_IFDIR <> S_IFDIR ->
     readdir repo path = Return []) /\
  (refs_above repo path = [] -> readdir repo path = Return []) /\
  (forall ref_name commit tree,
     refs_above repo path = [ref_name] ->
     get_reference_commit repo ref_name = Return commit ->
     commit_tree repo commit = Return tree ->
     git_tree_find repo tree (str_from path (String.length ref_name + 1))
       = Return None ->
     readdir repo path = Raise (FuseOSError ENOENT)).
Proof.
  intros Hroot Hbelow Hnotref. split; [| split].
  - intros ref_name entry (Habove & commit & tree & Hc & Ht & Hf) Hmode.
    rewrite readdir_below_refs by done. cbv zeta. rewrite Habove.
    cbn [length Nat.eqb]. rewrite index_singleton, bind_Return.
    rewrite Hc, bind_Return, Ht, bind_Return, Hf, bind_Return.
    apply Z.eqb_neq in Hmode. by rewrite Hmode.
  - intros Habove. rewrite readdir_below_refs by done. by rewrite Habove.
  - intros ref_name commit tree. by apply readdir_unresolved.
Qed.

(** A blob, an unmatched path and a missing entry of the sample
    repository. *)
Lemma readdir_file_or_unmatched_witness :
  readdir Samples.demo "/heads/main/src/main.py" = Return [] /\
  readdir Samples.demo "/nothing/here" = Return [] /\
  readdir Samples.demo "/heads/main/nothing" = Raise (FuseOSError ENOENT).
Proof.
  assert (Hnot : forall p, bool_decide (p ∉ refs Samples.demo) = true ->
                           p ∉ refs Samples.demo)
    by (intros p Hp; by apply bool_decide_eq_true in Hp).
  split; [| split].
  - refine (proj1 (readdir_file_or_unmatched Samples.demo
                     "/heads/main/src/main.py" eq_refl eq_refl _)
              "/heads/main" (mkEntry "main.py" 33261 3%N) _ _).
    + apply Hnot. vm_compute. reflexivity.
    + split; [reflexivity |].
      exists (Commit 2%N),
        (Tree [mkEntry "README" 33188 3%N; mkEntry "src" 16384 4%N]).
      repeat split; vm_compute; reflexivity.
    + vm_compute. discriminate.
  - refine (proj1 (proj2 (readdir_file_or_unmatched Samples.demo
                            "/nothing/here" eq_refl eq_refl _)) eq_refl).
    apply Hnot. vm_compute. reflexivity.
  - refine (proj2 (proj2 (readdir_file_or_unmatched Samples.demo
                            "/heads/main/nothing" eq_refl eq_refl _))
              "/heads/main" (Commit 2%N)
              (Tree [mkEntry "README" 33188 3%N; mkEntry "src" 16384 4%N])
              eq_refl eq_refl eq_refl eq_refl).
    apply Hnot. vm_compute. reflexivity.
Defined.

(** ** Ambiguous references (C1) *)

Section ambiguity.

Variable repo : Repository.

Lemma read_ambiguous path size offset :
  startswith path "/." = false ->
  (1 < length (refs_above repo path))%nat ->
  read repo path size offset =
    Raise (GitFSError "Duplicate refs matching path in read query: {0}"
                      (refs_above repo path)).
Proof.
  intros Hdot Hlen. unfold read. rewrite Hdot. cbv zeta.
  fold (refs_above repo path).
  replace (length (refs_above repo path) =? 1)%nat with false
    by (symmetry; apply Nat.eqb_neq; lia).
  apply Nat.ltb_lt in Hlen. by rewrite Hlen.
Qed.

Lemma readdir_ambiguous path :
  refs_below repo path = [] ->
  path ∉ refs repo ->
  (1 < length (refs_above repo path))%nat ->
  readdir repo path =
    Raise (GitFSError "Duplicate refs matching path in readdir query: {0}"
                      (refs_above repo path)).
Proof.
  intros Hbelow Hnotref Hlen.
  rewrite readdir_below_refs by (try done; by apply (ambiguous_not_root repo)).
  cbv zeta.
  replace (length (refs_above repo path) =? 1)%nat with false
    by (symmetry; apply Nat.eqb_neq; lia).
  apply Nat.ltb_lt in Hlen. by rewrite Hlen.
Qed.

Lemma getattr_ambiguous path :
  get_child_refs repo path = [] ->
  (1 < length (refs_above repo path))%nat ->
  getattr repo path = Raise (FuseOSError ENOENT).
Proof.
  intros Hchild Hlen. unfold getattr.
  destruct (startswith path "/."); [reflexivity |].
  rewrite Hchild, (ambiguous_not_root repo path Hlen). cbn [truthy orb].
  rewrite get_parent_ref_not_unique by lia. reflexivity.
Qed.

End ambiguity.

(** C1, as stated, fails. With the references [heads/foo],
    [heads/foo/bar] and [heads/foo/bar/baz/qux]: two names are
    slash-terminated prefixes of ['/heads/foo/bar/x'] and the attribute
    query raises NotFound; two are of ['/heads/foo/bar/baz'] and the
    listing returns the namespace directory's children. *)
Lemma ambiguous_path_not_always_rejected :
  refs_above Samples.nested "/heads/foo/bar/x" = ["/heads/foo"; "/heads/foo/bar"] /\
  getattr Samples.nested "/heads/foo/bar/x" = Raise (FuseOSError ENOENT) /\
  refs_above Samples.nested "/heads/foo/bar/baz" = ["/heads/foo"; "/heads/foo/bar"] /\
  readdir Samples.nested "/heads/foo/bar/baz" = Return ["qux"].
Proof. repeat split; vm_compute; reflexivity. Qed.

(** A reference that is itself below two others lists its own tree. *)
Example ambiguous_path_that_is_a_reference :
  refs_above Samples.nested "/heads/foo/bar/baz/qux"
    = ["/heads/foo"; "/heads/foo/bar"] /\
  readdir Samples.nested "/heads/foo/bar/baz/qux" = Return ["README"; "src"].
Proof. split; vm_compute; reflexivity. Qed.

(** With dotted names in the table, [read] gives up on the leading dot
    before it looks at the references. *)
Example ambiguous_hidden_path :
  refs_above Samples.dotted "/.x/y/z" = ["/.x"; "/.x/y"] /\
  read Samples.dotted "/.x/y/z" 10 0 = Return (VExc (FuseOSError ENOENT)).
Proof. split; vm_compute; reflexivity. Qed.

(** C1, amended. When more than one reference name is a slash-terminated
    prefix of the path: [read] raises the distinct [GitFSError], naming
    the matches, unless the path begins with ['/.']; [readdir] raises it
    unless the path is a namespace directory or itself a reference; the
    attribute query, when no reference name starts with the path, raises
    NotFound. *)
Theorem ambiguous_reference_outcomes repo path :
  (1 < length (refs_above repo path))%nat ->
  (startswith path "/." = false ->
   forall size offset,
     read repo path size offset =
       Raise (GitFSError "Duplicate refs matching path in read query: {0}"
                         (refs_above repo path))) /\
  (refs_below repo path = [] -> path ∉ refs repo ->
   readdir repo path =
     Raise (GitFSError "Duplicate refs matching path in readdir query: {0}"
                       (refs_above repo path))) /\
  (get_child_refs repo path = [] ->
   getattr repo path = Raise (FuseOSError ENOENT)).
Proof.
  intros Hlen. split; [| split].
  - intros Hdot size offset. by apply read_ambiguous.
  - intros Hbelow Hnotref. by apply readdir_ambiguous.
  - intros Hchild. by apply getattr_ambiguous.
Qed.

(** A path under both [heads/foo] and [heads/foo/bar]. *)
Lemma ambiguous_reference_outcomes_witness :
  (1 < length (refs_above Samples.nested "/heads/foo/bar/x"))%nat /\
  read Samples.nested "/heads/foo/bar/x" 4096 0 =
    Raise (GitFSError "Duplicate refs matching path in read query: {0}"
                      ["/heads/foo"; "/heads/foo/bar"]) /\
  readdir Samples.nested "/heads/foo/bar/x" =
    Raise (GitFSError "Duplicate refs matching path in readdir query: {0}"
                      ["/heads/foo"; "/heads/foo/bar"]).
Proof.
  assert (Hlen : (1 < length (refs_above Samples.nested "/heads/foo/bar/x"))%nat)
    by (vm_compute; lia).
  destruct (ambiguous_reference_outcomes Samples.nested "/heads/foo/bar/x" Hlen)
    as (Hread & Hreaddir & _).
  split; [exact Hlen |]. split.
  - exact (Hread eq_refl 4096 0).
  - apply Hreaddir; [reflexivity |].
    apply (bool_decide_unpack _). vm_compute. exact I.
Defined.

(** * Further properties of the operations *)

(** ** [copy_stat]: what it keeps *)

Section copy_stat_kept.

Lemma mask_keeps_other_bits m n :
  Z.testbit write_bits n = false ->
  Z.testbit (Z.land m (Z.lnot write_bits)) n = Z.testbit m n.
Proof.
  intros Hn. destruct (Z.neg_nonneg_cases n) as [Hneg | Hpos].
  - by rewrite !Z.testbit_neg_r.
  - rewrite Z.land_spec, Z.lnot_spec, Hn by done. apply andb_true_r.
Qed.

End copy_stat_kept.

(** X1. A copy made without keyword arguments differs from the original
    in the inode number and the three write bits only: device, link
    count, owner, group, size and the three times are the original's,
    and so is every bit of the mode outside [0222] (file type, read and
    execute permissions, set-id and sticky bits). *)
Theorem copy_stat_keeps_the_rest st :
  let st' := copy_stat st [] in
  st_dev st' = st_dev st /\ st_nlink st' = st_nlink st /\
  st_uid st' = st_uid st /\ st_gid st' = st_gid st /\
  st_size st' = st_size st /\ st_atime st' = st_atime st /\
  st_mtime st' = st_mtime st /\ st_ctime st' = st_ctime st /\
  (forall n, Z.testbit write_bits n = false ->
             Z.testbit (st_mode st') n = Z.testbit (st_mode st) n) /\
  Z.land (st_mode st') S_IFDIR = Z.land (st_mode st) S_IFDIR.
Proof.
  cbv zeta. repeat (split; [reflexivity |]). split.
  - intros n Hn. by apply mask_keeps_other_bits.
  - apply Z.bits_inj'. intros n _. rewrite !Z.land_spec.
    destruct (Z.testbit S_IFDIR n) eqn:Hd; [| by rewrite !andb_false_r].
    rewrite !andb_true_r. apply mask_keeps_other_bits.
    destruct (Z.eq_dec n 14) as [-> | Hne]; [reflexivity |].
    change S_IFDIR with (2 ^ 14) in Hd.
    rewrite Z.pow2_bits_false in Hd by lia. discriminate.
Qed.

(** ** [git_tree_find]: segments, descent and errors *)

Section segments.

Lemma split_snoc s n :
  no_slash n = true -> split (s +:+ "/" +:+ n) "/" = (split s "/" ++ [n])%list.
Proof.
  intros Hn. induction s as [| c s IH]; simpl.
  - change ("" +:+ n) with n. by rewrite (split_segment _ Hn).
  - destruct (Ascii.eqb c "/"); rewrite IH; [reflexivity |].
    pose proof (split_not_nil s "/") as Hne.
    by destruct (split s "/").
Qed.

(** The last segment of a path: free of slashes, and either the whole
    path or what follows its last slash. *)
Lemma split_last s l :
  last (split s "/") = Some l ->
  no_slash l = true /\
  ((split s "/" = [l] /\ s = l) \/
   (exists dir, s = dir +:+ "/" +:+ l /\ (2 <= length (split s "/"))%nat)).
Proof.
  revert l. induction s as [| c s IH]; intros l; simpl.
  - intros [= <-]. split; [done |]. by left.
  - pose proof (split_not_nil s "/") as Hne.
    destruct (Ascii.eqb c "/") eqn:Hc.
    + apply Ascii.eqb_eq in Hc as ->.
      destruct (split s "/") as [| h t] eqn:Hs; [done |].
      rewrite last_cons_cons. intros Hl.
      destruct (IH l Hl) as [Hns Hcase]. split; [done |]. right.
      destruct Hcase as [[_ ->] | (dir & -> & _)].
      * exists "". split; [reflexivity | simpl; lia].
      * exists (String "/" dir). split; [reflexivity | simpl; lia].
    + destruct (split s "/") as [| h t] eqn:Hs; [done |].
      destruct t as [| h' t].
      * simpl. intros [= <-].
        destruct (IH h eq_refl) as [Hns Hcase].
        destruct Hcase as [[_ ->] | (dir & _ & Hlen)]; [| simpl in Hlen; lia].
        split; [simpl; by rewrite Hc, Hns |]. by left.
      * rewrite last_cons_cons. intros Hl.
        rewrite last_cons_cons in IH.
        destruct (IH l Hl) as [Hns Hcase]. split; [done |]. right.
        destruct Hcase as [[[=] _] | (dir & -> & _)].
        exists (String c dir). split; [reflexivity | simpl; lia].
Qed.

Lemma reduce_app {A B} (f : A -> B -> result A) l1 l2 init :
  reduce f (l1 ++ l2)%list init = (a ← reduce f l1 init; reduce f l2 a).
Proof.
  revert init. induction l1 as [| x l1 IH]; intros init; [reflexivity |].
  cbn [app reduce]. destruct (f init x) as [a | e]; [| reflexivity].
  rewrite !bind_Return. apply IH.
Qed.

Lemma index_last_snoc {A} (l : list A) x : index_last (l ++ [x])%list = Return x.
Proof. unfold index_last. by rewrite last_snoc. Qed.

Lemma index_last_Return {A} (l : list A) x :
  index_last l = Return x -> l = (but_last l ++ [x])%list.
Proof.
  unfold index_last, but_last. destruct (last l) as [y |] eqn:Hl; [| done].
  intros [= <-]. destruct l as [| a l] using rev_ind; [done |].
  rewrite last_snoc in Hl. injection Hl as <-.
  by rewrite removelast_last.
Qed.

End segments.

Section descent.

Variable repo : Repository.

(** [git_tree_find], with the step of its [reduce] named. *)
Lemma git_tree_find_unfold t path :
  git_tree_find repo t path =
    (tree ← reduce (descend repo) (but_last (split path "/")) (Some t);
     last_part ← index_last (split path "/");
     match tree with
     | None => Return None
     | Some tree' =>
         match tree_getitem tree' last_part with
         | Return entry => Return (Some entry)
         | Raise TypeError | Raise KeyError => Return None
         | Raise e => Raise e
         end
     end).
Proof. reflexivity. Qed.

Lemma tree_getitem_raises t part e :
  tree_getitem t part = Raise e -> e = KeyError \/ e = TypeError.
Proof.
  rewrite tree_getitem_entry_named.
  destruct (entry_named t part); [done |].
  destruct t; intros [= <-]; auto.
Qed.

Lemma tree_getitem_name t part e :
  tree_getitem t part = Return e -> name e = part.
Proof.
  destruct t as [| entries | |]; simpl; try done.
  destruct (List.find _ entries) as [e' |] eqn:Hf; [| done].
  intros [= <-]. apply find_some in Hf as [_ Hn].
  by apply String.eqb_eq in Hn.
Qed.

(** The guarded lookup of the last segment never raises. *)
Lemma guarded_lookup t part :
  match tree_getitem t part with
  | Return entry => Return (Some entry)
  | Raise TypeError | Raise KeyError => Return None
  | Raise e => Raise e
  end = Return (entry_named t part).
Proof.
  rewrite tree_getitem_entry_named.
  destruct (entry_named t part); [reflexivity |]. by destruct t.
Qed.

Lemma descend_raises t part e :
  descend repo t part = Raise e -> e = KeyError \/ e = TypeError.
Proof.
  destruct t as [t |]; simpl; [| done].
  destruct (tree_getitem t part) as [en | e'] eqn:Hg.
  - rewrite bind_Return. unfold to_object, getitem.
    destruct (objects repo !! oid en); [done |]. intros [= <-]. by left.
  - intros [= <-]. by apply tree_getitem_raises in Hg.
Qed.

Lemma reduce_descend_raises parts t e :
  reduce (descend repo) parts t = Raise e -> e = KeyError \/ e = TypeError.
Proof.
  revert t. induction parts as [| p parts IH]; intros t; [done |].
  cbn [reduce]. destruct (descend repo t p) as [t' | e'] eqn:Hd.
  - rewrite bind_Return. apply IH.
  - intros [= <-]. by apply descend_raises in Hd.
Qed.

Lemma git_tree_find_raises t path e :
  git_tree_find repo t path = Raise e -> e = KeyError \/ e = TypeError.
Proof.
  rewrite git_tree_find_unfold.
  destruct (reduce _ _ _) as [tree | e'] eqn:Hr.
  - rewrite bind_Return. unfold index_last.
    pose proof (split_not_nil path "/") as Hne.
    destruct (last (split path "/")) as [lp |] eqn:Hl.
    + rewrite bind_Return. destruct tree as [tree |]; [| done].
      by rewrite guarded_lookup.
    + by apply last_None in Hl.
  - intros [= <-]. by apply reduce_descend_raises in Hr.
Qed.

(** What a successful lookup went through: the directory segments led to
    a tree, and the last segment named the entry in it. *)
Lemma git_tree_find_Some_inv t path e :
  git_tree_find repo t path = Return (Some e) ->
  exists tree' last_part,
    reduce (descend repo) (but_last (split path "/")) (Some t)
      = Return (Some tree') /\
    index_last (split path "/") = Return last_part /\
    tree_getitem tree' last_part = Return e.
Proof.
  rewrite git_tree_find_unfold. intros H.
  apply bind_Return_inv in H as (tree & Hr & H).
  apply bind_Return_inv in H as (lp & Hl & H).
  destruct tree as [tree' |]; [| done].
  exists tree', lp. repeat split; try done.
  rewrite guarded_lookup in H. injection H as H.
  rewrite tree_getitem_entry_named, H. reflexivity.
Qed.

(** One more segment after a path that led to an entry. *)
Lemma git_tree_find_extend t rel e o n :
  git_tree_find repo t rel = Return (Some e) ->
  to_object repo e = Return o ->
  no_slash n = true ->
  git_tree_find repo t (rel +:+ "/" +:+ n) = Return (entry_named o n).
Proof.
  intros (tree' & lp & Hr & Hl & He)%git_tree_find_Some_inv Ho Hn.
  rewrite git_tree_find_unfold, (split_snoc _ _ Hn).
  unfold but_last at 1. rewrite removelast_last, index_last_snoc.
  rewrite (index_last_Return _ _ Hl), reduce_app, Hr, bind_Return.
  cbn [reduce descend]. rewrite He, bind_Return, Ho, !bind_Return.
  apply guarded_lookup.
Qed.

End descent.

(** X2. Whatever [git_tree_find] raises is a [KeyError] or a
    [TypeError], the two exceptions of its directory descent; a path of
    a single segment raises nothing. *)
Theorem git_tree_find_raises_only repo t path :
  (forall e, git_tree_find repo t path = Raise e ->
             e = KeyError \/ e = TypeError) /\
  (no_slash path = true -> exists r, git_tree_find repo t path = Return r).
Proof.
  split.
  - intros e. apply git_tree_find_raises.
  - intros Hp. eexists. by apply git_tree_find_one_segment.
Qed.

(** X3. Descending one directory: when the first segment names an entry
    of the tree whose object is in the store, looking up the whole path
    is looking up the rest of it in that object. *)
Theorem git_tree_find_descends repo t d e o rest :
  no_slash d = true ->
  tree_getitem t d = Return e ->
  to_object repo e = Return o ->
  git_tree_find repo t (d +:+ "/" +:+ rest) = git_tree_find repo o rest.
Proof.
  intros Hd He Ho. rewrite !git_tree_find_unfold.
  rewrite (split_cons_segment _ _ Hd).
  pose proof (split_not_nil rest "/") as Hne.
  destruct (split rest "/") as [| q qs]; [done |].
  change (but_last (d :: q :: qs)) with (d :: but_last (q :: qs)).
  change (index_last (d :: q :: qs)) with (index_last (q :: qs)).
  cbn [reduce descend]. by rewrite He, bind_Return, Ho, bind_Return.
Qed.

Lemma git_tree_find_descends_witness :
  git_tree_find Samples.demo
    (Tree [mkEntry "README" 33188 3%N; mkEntry "src" 16384 4%N]) "src/main.py"
  = git_tree_find Samples.demo (Tree [mkEntry "main.py" 33261 3%N]) "main.py".
Proof.
  exact (git_tree_find_descends Samples.demo
           (Tree [mkEntry "README" 33188 3%N; mkEntry "src" 16384 4%N])
           "src" (mkEntry "src" 16384 4%N) (Tree [mkEntry "main.py" 33261 3%N])
           "main.py" eq_refl eq_refl eq_refl).
Defined.

(** X4. A child of a found directory: when a path leads to an entry
    whose object is in the store, the path extended by one more segment
    leads to the entry of that name in the object, and to nothing when
    the object is no tree or has no such entry. No exception leaves. *)
Theorem git_tree_find_child repo t rel e o n :
  git_tree_find repo t rel = Return (Some e) ->
  to_object repo e = Return o ->
  no_slash n = true ->
  git_tree_find repo t (rel +:+ "/" +:+ n) = Return (entry_named o n).
Proof. intros Hf Ho Hn. by apply (git_tree_find_extend repo t rel e). Qed.

Lemma git_tree_find_child_witness :
  git_tree_find Samples.demo
    (Tree [mkEntry "README" 33188 3%N; mkEntry "src" 16384 4%N]) "src/main.py"
  = Return (Some (mkEntry "main.py" 33261 3%N)).
Proof.
  exact (git_tree_find_child Samples.demo
           (Tree [mkEntry "README" 33188 3%N; mkEntry "src" 16384 4%N])
           "src" (mkEntry "src" 16384 4%N) (Tree [mkEntry "main.py" 33261 3%N])
           "main.py" eq_refl eq_refl eq_refl).
Defined.

(** X5. The entry [git_tree_find] returns carries the name of the last
    segment of the path: a name without slash that is the whole path or
    what follows its last slash. *)
Theorem git_tree_find_entry_name repo t path e :
  git_tree_find repo t path = Return (Some e) ->
  no_slash (name e) = true /\
  (path = name e \/ exists dir, path = dir +:+ "/" +:+ name e).
Proof.
  intros (tree' & lp & _ & Hl & He)%git_tree_find_Some_inv.
  apply tree_getitem_name in He as ->.
  unfold index_last in Hl.
  destruct (last (split path "/")) as [l |] eqn:Hlast; [| done].
  injection Hl as ->.
  destruct (split_last _ _ Hlast) as [Hns Hcase]. split; [done |].
  destruct Hcase as [[_ ->] | (dir & -> & _)]; [by left |].
  right. by exists dir.
Qed.

Lemma git_tree_find_entry_name_witness :
  no_slash "main.py" = true /\
  ("src/main.py" = "main.py" \/ exists dir, "src/main.py" = dir +:+ "/" +:+ "main.py").
Proof.
  exact (git_tree_find_entry_name Samples.demo
           (Tree [mkEntry "README" 33188 3%N; mkEntry "src" 16384 4%N])
           "src/main.py" (mkEntry "main.py" 33261 3%N) eq_refl).
Defined.

(** ** Reference names: [refs], lookup and [get_parent_ref] *)

Section strings.

Lemma appstr_assoc (a b c : string) : (a +:+ b) +:+ c = a +:+ (b +:+ c).
Proof.
  induction a as [| x a IH]; [reflexivity |].
  change (String x ((a +:+ b) +:+ c) = String x (a +:+ (b +:+ c))).
  by rewrite IH.
Qed.

Lemma appstr_nil_r (a : string) : a +:+ "" = a.
Proof.
  induction a as [| x a IH]; [reflexivity |].
  change (String x (a +:+ "") = String x a). by rewrite IH.
Qed.

Lemma startswith_refl s : startswith s s = true.
Proof. apply startswith_app. exists "". by rewrite appstr_nil_r. Qed.

Lemma startswith_trans s p q :
  startswith s p = true -> startswith p q = true -> startswith s q = true.
Proof.
  intros [r1 ->]%startswith_app [r2 ->]%startswith_app.
  apply startswith_app. exists (r2 +:+ r1). apply appstr_assoc.
Qed.

Lemma startswith_app_l p rest : startswith (p +:+ rest) p = true.
Proof. apply startswith_app. by exists rest. Qed.

(** [s[len(r) + 1:]] is what follows [r] and one more character. *)
Lemma str_from_after r c rest :
  str_from (r +:+ String c rest) (String.length r + 1) = rest.
Proof. induction r as [| x r IH]; [reflexivity | exact IH]. Qed.

Lemma appstr_inj_l (p a b : string) : p +:+ a = p +:+ b -> a = b.
Proof.
  induction p as [| x p IH]; [done |].
  change (String x (p +:+ a) = String x (p +:+ b) -> a = b).
  intros [= H]. auto.
Qed.

End strings.

Section names.

Variable repo : Repository.

Lemma refs_full_name r :
  r ∈ refs repo ->
  startswith r "/" = true /\ ("refs" +:+ r) ∈ listall_references repo.
Proof.
  unfold refs. intros (full & -> & Hin)%list_elem_of_fmap.
  apply list_elem_of_filter in Hin as [Hp Hin].
  apply Is_true_true, startswith_app in Hp as [rest ->].
  split; [reflexivity | exact Hin].
Qed.

Lemma refs_of_full_name r :
  startswith r "/" = true -> ("refs" +:+ r) ∈ listall_references repo ->
  r ∈ refs repo.
Proof.
  intros [rest ->]%startswith_app Hin. unfold refs.
  apply list_elem_of_fmap. exists ("refs" +:+ ("/" +:+ rest)).
  split; [reflexivity |]. apply list_elem_of_filter. split; [| exact Hin].
  apply Is_true_true. reflexivity.
Qed.


(** One reference above a path is what [get_parent_ref] returns. *)
Lemma get_parent_ref_unique path r :
  refs_above repo path = [r] -> get_parent_ref repo path = Return r.
Proof.
  intros H. unfold get_parent_ref. fold (refs_above repo path). by rewrite H.
Qed.

Lemma get_parent_ref_Return path r :
  get_parent_ref repo path = Return r -> refs_above repo path = [r].
Proof.
  unfold get_parent_ref. fold (refs_above repo path).
  destruct (refs_above repo path) as [| r1 [| r2 l]]; simpl; try done.
  by intros [= ->].
Qed.

(** A reference above a path splits it: the name, a slash, and the
    relative path the operations cut out with [path[len(ref) + 1:]]. *)
Lemma refs_above_splits path r :
  r ∈ refs_above repo path ->
  r ∈ refs repo /\ path = r +:+ "/" +:+ str_from path (String.length r + 1).
Proof.
  unfold refs_above. intros [Hp Hr]%list_elem_of_filter. split; [done |].
  apply Is_true_true, startswith_app in Hp as [rest ->].
  rewrite appstr_assoc. change ("/" +:+ rest) with (String "/" rest).
  by rewrite str_from_after.
Qed.

End names.

(** X6. The names in [refs] are the reference names of the repository
    that begin with ['refs/'], with the leading ['refs'] cut off: a name
    is in [refs] exactly when it begins with a slash and, with ['refs']
    put back in front, is a reference of the repository. *)
Theorem refs_are_stripped_names repo r :
  r ∈ refs repo <->
  startswith r "/" = true /\ ("refs" +:+ r) ∈ listall_references repo.
Proof.
  split; [apply refs_full_name |]. intros [H1 H2]. by apply refs_of_full_name.
Qed.



(** X8. [get_parent_ref] returns a reference exactly when one reference
    lies above the path; the path then is that name, a slash, and the
    relative path [path[len(parent) + 1:]]. Otherwise it raises NotFound
    and nothing else. *)
Theorem get_parent_ref_splits_path repo path :
  (forall r, get_parent_ref repo path = Return r <-> refs_above repo path = [r]) /\
  (forall r, get_parent_ref repo path = Return r ->
     r ∈ refs repo /\
     path = r +:+ "/" +:+ str_from path (String.length r + 1)) /\
  (forall e, get_parent_ref repo path = Raise e ->
     e = FuseOSError ENOENT /\ length (refs_above repo path) <> 1%nat).
Proof.
  split; [| split].
  - intros r. split; [apply get_parent_ref_Return | apply get_parent_ref_unique].
  - intros r Hr%get_parent_ref_Return. apply refs_above_splits.
    rewrite Hr. left.
  - intros e. unfold get_parent_ref. fold (refs_above repo path).
    destruct (refs_above repo path) as [| r1 [| r2 l]]; simpl; try done;
      by intros [= <-].
Qed.

(** ** Attributes: directories, files and what is not found *)

Section attribute_cases.

Variable repo : Repository.

(** [getattr] past the test for the leading dot, the root and the child
    references, on a path with one reference above it. *)
Lemma getattr_resolved path ref_name commit tree :
  startswith path "/." = false ->
  get_child_refs repo path = [] ->
  refs_above repo path = [ref_name] ->
  get_reference_commit repo ref_name = Return commit ->
  commit_tree repo commit = Return tree ->
  getattr repo path =
    (entry ← git_tree_find repo tree
               (str_from path (String.length ref_name + 1));
     match entry with
     | None => Raise (FuseOSError ENOENT)
     | Some entry =>
         if is_dir_entry entry then Return (default_stat repo)
         else
           blob ← getitem repo (oid entry);
           data ← blob_data blob;
           Return (copy_stat (path_lstat repo)
                     [(k_st_size, Z.of_nat (length data));
                      (k_st_mode, filemode entry)])
     end).
Proof.
  intros Hdot Hchild Habove Hc Ht. unfold getattr.
  rewrite Hdot, Hchild.
  rewrite (refs_above_not_root repo path ref_name) by (rewrite Habove; left).
  cbn [truthy orb].
  by rewrite (get_parent_ref_unique _ _ _ Habove), bind_Return, Hc,
    bind_Return, Ht, bind_Return.
Qed.

Lemma getattr_entry path ref_name e :
  startswith path "/." = false ->
  get_child_refs repo path = [] ->
  resolves_to_entry repo path ref_name e ->
  getattr repo path =
    if is_dir_entry e then Return (default_stat repo)
    else
      blob ← getitem repo (oid e);
      data ← blob_data blob;
      Return (copy_stat (path_lstat repo)
                [(k_st_size, Z.of_nat (length data)); (k_st_mode, filemode e)]).
Proof.
  intros Hdot Hchild (Habove & commit & tree & Hc & Ht & Hf).
  by rewrite (getattr_resolved _ _ _ _ Hdot Hchild Habove Hc Ht), Hf, bind_Return.
Qed.

(** What [getattr] returns is the default record or the record of a
    file, made with a size and a mode. *)
Lemma getattr_Return_cases path st :
  getattr repo path = Return st ->
  st = default_stat repo \/
  exists size mode,
    st = copy_stat (path_lstat repo) [(k_st_size, size); (k_st_mode, mode)].
Proof.
  unfold getattr. intros H.
  destruct (startswith path "/."); [discriminate |].
  destruct (String.eqb path "/" || truthy (get_child_refs repo path)).
  { injection H as <-. by left. }
  invert_binds H.
  destruct a2 as [entry |]; [| discriminate].
  destruct (Z.land (filemode entry) S_IFDIR =? S_IFDIR).
  { injection H as <-. by left. }
  invert_binds H. injection H as <-. right. by eexists _, _.
Qed.

End attribute_cases.

(** X9. The root, every reference and every namespace directory have
    the attributes of the repository directory (made read-only by
    [copy_stat]); [getattr] answers from the reference names alone,
    whether or not the commits behind them are in the object store. *)
Theorem getattr_of_reference_names repo path :
  startswith path "/." = false ->
  String.eqb path "/" = true \/ path ∈ refs repo \/ refs_below repo path <> [] ->
  getattr repo path = Return (default_stat repo).
Proof.
  intros Hdot [Hroot | [Hin | Hbelow]].
  - unfold getattr. by rewrite Hdot, Hroot.
  - apply (getattr_of_string_prefix repo path path); [done | done |].
    apply startswith_refl.
  - destruct (refs_below repo path) as [| r l] eqn:E; [done |].
    assert (Hr : r ∈ refs_below repo path) by (rewrite E; left).
    unfold refs_below in Hr. apply list_elem_of_filter in Hr as [Hp Hr].
    apply (getattr_of_string_prefix repo path r); [done | done |].
    apply Is_true_true in Hp.
    apply (startswith_trans _ _ _ Hp), startswith_app_l.
Qed.

Lemma getattr_of_reference_names_witness :
  getattr Samples.demo "/heads" = Return (default_stat Samples.demo) /\
  getattr (mkRepo Samples.dir_stat [("refs/heads/main", Direct 7%N)] ∅)
    "/heads/main"
  = Return (default_stat
              (mkRepo Samples.dir_stat [("refs/heads/main", Direct 7%N)] ∅)).
Proof.
  split.
  - apply (getattr_of_reference_names Samples.demo "/heads" eq_refl).
    right. right. vm_compute. discriminate.
  - apply (getattr_of_reference_names _ "/heads/main" eq_refl).
    right. left. apply (bool_decide_unpack _). vm_compute. exact I.
Defined.

(** X10. The attributes of a file: for a path that leads, inside the one
    reference above it, to an entry without the directory bit whose
    object is a blob, [getattr] reports the length of the blob as size
    and the mode of the tree entry with the write bits cleared; inode
    number 0; owner, group, device, link count and times are those of
    the repository directory. *)
Theorem getattr_of_blob repo path ref_name e data :
  startswith path "/." = false ->
  get_child_refs repo path = [] ->
  resolves_to_entry repo path ref_name e ->
  is_dir_entry e = false ->
  to_object repo e = Return (Blob data) ->
  exists st,
    getattr repo path = Return st /\
    st_size st = Z.of_nat (length data) /\
    st_mode st = Z.land (filemode e) (Z.lnot write_bits) /\
    st_ino st = 0 /\
    st_uid st = st_uid (path_lstat repo) /\
    st_gid st = st_gid (path_lstat repo) /\
    st_dev st = st_dev (path_lstat repo) /\
    st_nlink st = st_nlink (path_lstat repo) /\
    st_atime st = st_atime (path_lstat repo) /\
    st_mtime st = st_mtime (path_lstat repo) /\
    st_ctime st = st_ctime (path_lstat repo).
Proof.
  intros Hdot Hchild Hres Hdir Hobj.
  rewrite (getattr_entry repo path ref_name e Hdot Hchild Hres), Hdir.
  unfold to_object in Hobj. rewrite Hobj, bind_Return. simpl blob_data.
  rewrite bind_Return. eexists. split; [reflexivity |].
  repeat split.
Qed.

Lemma getattr_of_blob_witness :
  exists st,
    getattr Samples.demo "/heads/main/README" = Return st /\
    st_size st = 5 /\ st_mode st = 33060.
Proof.
  destruct (getattr_of_blob Samples.demo "/heads/main/README" "/heads/main"
              (mkEntry "README" 33188 3%N) Samples.hello eq_refl eq_refl)
    as (st & Hst & Hsize & Hmode & _).
  - split; [reflexivity |].
    exists (Commit 2%N),
      (Tree [mkEntry "README" 33188 3%N; mkEntry "src" 16384 4%N]).
    repeat split; vm_compute; reflexivity.
  - reflexivity.
  - reflexivity.
  - exists st. split; [exact Hst |]. split; [exact Hsize | exact Hmode].
Defined.

(** X11. A directory inside a tree: for a path that leads, inside the
    one reference above it, to an entry with the directory bit,
    [getattr] returns the record of the root directory, and does so
    without fetching the subtree. *)
Theorem getattr_of_tree_directory repo path ref_name e :
  startswith path "/." = false ->
  get_child_refs repo path = [] ->
  resolves_to_entry repo path ref_name e ->
  is_dir_entry e = true ->
  getattr repo path = Return (default_stat repo) /\
  getattr repo path = getattr repo "/".
Proof.
  intros Hdot Hchild Hres Hdir.
  rewrite (getattr_entry repo path ref_name e Hdot Hchild Hres), Hdir.
  split; reflexivity.
Qed.

Lemma getattr_of_tree_directory_witness :
  getattr Samples.demo "/heads/main/src" = Return (default_stat Samples.demo) /\
  getattr Samples.demo "/heads/main/src" = getattr Samples.demo "/".
Proof.
  apply (getattr_of_tree_directory Samples.demo "/heads/main/src" "/heads/main"
           (mkEntry "src" 16384 4%N) eq_refl eq_refl); [| reflexivity].
  split; [reflexivity |].
  exists (Commit 2%N),
    (Tree [mkEntry "README" 33188 3%N; mkEntry "src" 16384 4%N]).
  repeat split; vm_compute; reflexivity.
Defined.

(** X12. Whatever [getattr] returns has the device, link count, owner,
    group and the three times of the repository directory: a file of
    the tree differs from it in mode and size only. *)
Theorem getattr_owner_and_times repo path st :
  getattr repo path = Return st ->
  st_dev st = st_dev (path_lstat repo) /\
  st_nlink st = st_nlink (path_lstat repo) /\
  st_uid st = st_uid (path_lstat repo) /\
  st_gid st = st_gid (path_lstat repo) /\
  st_atime st = st_atime (path_lstat repo) /\
  st_mtime st = st_mtime (path_lstat repo) /\
  st_ctime st = st_ctime (path_lstat repo).
Proof.
  intros [-> | (size & mode & ->)]%getattr_Return_cases; repeat split.
Qed.

Lemma getattr_owner_and_times_witness :
  st_uid (mkStat 33133 0 5 2 1000 1000 5 11 12 13) = 1000 /\
  st_mtime (mkStat 33133 0 5 2 1000 1000 5 11 12 13) = 12.
Proof.
  destruct (getattr_owner_and_times Samples.demo "/heads/main/src/main.py"
              (mkStat 33133 0 5 2 1000 1000 5 11 12 13) eq_refl)
    as (_ & _ & Hu & _ & _ & Hm & _).
  split; [exact Hu | exact Hm].
Defined.

(** X13. What is not found: a path other than the root that no
    reference name starts with raises NotFound when the number of
    references above it is not one (none, or several), and when the one
    reference above it has no entry at the relative path. *)
Theorem getattr_not_found repo path :
  String.eqb path "/" = false ->
  get_child_refs repo path = [] ->
  (length (refs_above repo path) <> 1%nat ->
   getattr repo path = Raise (FuseOSError ENOENT)) /\
  (forall ref_name commit tree,
     refs_above repo path = [ref_name] ->
     get_reference_commit repo ref_name = Return commit ->
     commit_tree repo commit = Return tree ->
     git_tree_find repo tree (str_from path (String.length ref_name + 1))
       = Return None ->
     getattr repo path = Raise (FuseOSError ENOENT)).
Proof.
  intros Hroot Hchild. split.
  - intros Hlen. unfold getattr.
    destruct (startswith path "/."); [reflexivity |].
    rewrite Hroot, Hchild. cbn [truthy orb].
    by rewrite get_parent_ref_not_unique.
  - intros ref_name commit tree Habove Hc Ht Hf.
    destruct (startswith path "/.") eqn:Hdot; [by apply getattr_hidden |].
    by rewrite (getattr_resolved repo path ref_name commit tree), Hf.
Qed.

Lemma getattr_not_found_witness :
  getattr Samples.demo "/nothing/here" = Raise (FuseOSError ENOENT) /\
  getattr Samples.demo "/heads/main/nothing" = Raise (FuseOSError ENOENT).
Proof.
  split.
  - apply (getattr_not_found Samples.demo "/nothing/here" eq_refl eq_refl).
    vm_compute. discriminate.
  - apply (proj2 (getattr_not_found Samples.demo "/heads/main/nothing"
                    eq_refl eq_refl)
             "/heads/main" (Commit 2%N)
             (Tree [mkEntry "README" 33188 3%N; mkEntry "src" 16384 4%N]));
      reflexivity.
Defined.

(** ** Listings: namespace directories and trees *)

Section namespace_listing.

Variable repo : Repository.

Lemma appstr_length (a b : string) :
  String.length (a +:+ b) = (String.length a + String.length b)%nat.
Proof.
  induction a as [| x a IH]; [reflexivity |].
  change (S (String.length (a +:+ b)) = S (String.length a + String.length b)).
  by rewrite IH.
Qed.

(** Splitting once and taking the first piece is taking the first
    segment. *)
Lemma split_max_first s :
  index (split_max s "/" 1) 0 =
    Return (match split s "/" with h :: _ => h | [] => "" end).
Proof.
  induction s as [| c s IH]; [reflexivity |]. simpl.
  destruct (Ascii.eqb c "/"); [reflexivity |].
  pose proof (split_not_nil s "/") as Hne.
  destruct (split s "/") as [| h t]; [done |].
  destruct (split_max s "/" 1) as [| h' t']; [discriminate |].
  injection IH as ->. reflexivity.
Qed.

Lemma mapM_Return {A B} (f : A -> result B) (g : A -> B) (l : list A) :
  (forall x, f x = Return (g x)) -> mapM f l = Return (map g l).
Proof.
  intros Hf. induction l as [| x l IH]; [reflexivity |].
  cbn [map mapM]. by rewrite Hf, bind_Return, IH.
Qed.

(** The listing of a namespace directory, computed. *)
Lemma readdir_namespace path :
  String.eqb path "/" = false ->
  refs_below repo path <> [] ->
  readdir repo path =
    Return (list_frozenset
              (map (next_segment path)
                 (filter (fun r => (String.length path + 1 <? String.length r)%nat)
                    (refs_below repo path)))).
Proof.
  intros Hroot Hbelow. unfold readdir. rewrite Hroot. cbv zeta.
  fold (refs_below repo path).
  destruct (refs_below repo path) as [| r0 l0] eqn:E; [done |].
  cbn [truthy].
  rewrite (mapM_Return _ (next_segment path)); [reflexivity |].
  intros r. apply split_max_first.
Qed.

Lemma next_segment_below path r seg :
  segment_below path r seg -> next_segment path r = seg.
Proof.
  intros [Hseg [[_ ->] | [rest ->]]]; unfold next_segment.
  - change ("/" +:+ seg) with (String "/" seg).
    by rewrite str_from_after, (split_segment _ Hseg).
  - change ("/" +:+ seg +:+ "/" +:+ rest) with (String "/" (seg +:+ "/" +:+ rest)).
    by rewrite str_from_after, (split_cons_segment _ _ Hseg).
Qed.

(** The names listed are the segments right below the path. *)
Lemma namespace_names path seg :
  seg ∈ map (next_segment path)
          (filter (fun r => (String.length path + 1 <? String.length r)%nat)
             (refs_below repo path))
  <-> exists r, r ∈ refs repo /\ segment_below path r seg.
Proof.
  rewrite list_elem_of_fmap. split.
  - intros (r & -> & Hr). exists r.
    apply list_elem_of_filter in Hr as [Hlen Hr].
    unfold refs_below in Hr. apply list_elem_of_filter in Hr as [Hp Hr].
    split; [done |].
    apply Is_true_true, startswith_app in Hp as [suffix ->].
    apply Is_true_true, Nat.ltb_lt in Hlen.
    rewrite appstr_assoc in Hlen |- *.
    change ("/" +:+ suffix) with (String "/" suffix) in Hlen |- *.
    unfold next_segment, segment_below. rewrite str_from_after.
    rewrite appstr_length in Hlen. cbn [String.length] in Hlen.
    destruct (split_head suffix) as (h & t & -> & Hh & Hcase).
    split; [done |].
    destruct Hcase as [[_ ->] | (rest & -> & _)].
    + left. split; [| reflexivity]. intros ->. simpl in Hlen. lia.
    + right. by exists rest.
  - intros (r & Hr & Hseg). exists r.
    split; [symmetry; by apply next_segment_below |].
    apply list_elem_of_filter. split.
    + apply Is_true_true, Nat.ltb_lt.
      destruct Hseg as [_ [[Hne ->] | [rest ->]]];
        rewrite !appstr_length; cbn [String.length].
      * destruct seg; [done | simpl; lia].
      * lia.
    + unfold refs_below. apply list_elem_of_filter. split; [| done].
      apply Is_true_true, startswith_app.
      destruct Hseg as [_ [[_ ->] | [rest ->]]].
      * exists seg. by rewrite appstr_assoc.
      * exists (seg +:+ "/" +:+ rest). by rewrite appstr_assoc.
Qed.

End namespace_listing.

(** X14. Listing a namespace directory returns, without duplicates,
    exactly the path segments that stand right below the path in the
    reference names. *)
Theorem readdir_namespace_segments repo path :
  String.eqb path "/" = false ->
  refs_below repo path <> [] ->
  exists names,
    readdir repo path = Return names /\
    NoDup names /\
    forall seg, seg ∈ names <->
                exists r, r ∈ refs repo /\ segment_below path r seg.
Proof.
  intros Hroot Hbelow. eexists. split; [by apply readdir_namespace |].
  unfold list_frozenset. split; [apply NoDup_elements |].
  intros seg. rewrite elem_of_elements, elem_of_list_to_set.
  apply namespace_names.
Qed.

Lemma readdir_namespace_segments_witness :
  exists names,
    readdir Samples.demo "/heads" = Return names /\
    NoDup names /\
    forall seg, seg ∈ names <->
                exists r, r ∈ refs Samples.demo /\ segment_below "/heads" r seg.
Proof.
  apply (readdir_namespace_segments Samples.demo "/heads" eq_refl).
  vm_compute. discriminate.
Defined.

Section tree_listing.

Variable repo : Repository.

(** The listing of a reference: the root tree of the commit its
    resolved target names. *)
Lemma readdir_reference path :
  String.eqb path "/" = false ->
  refs_below repo path = [] ->
  path ∈ refs repo ->
  readdir repo path =
    (ref ← lookup_reference repo ("refs" +:+ path);
     ref ← resolve repo ref;
     o ← ref_oid ref;
     commit ← getitem repo o;
     tree ← commit_tree repo commit;
     git_tree_to_direntries tree).
Proof.
  intros Hroot Hbelow Hin. unfold readdir. rewrite Hroot. cbv zeta.
  unfold refs_below in Hbelow. rewrite Hbelow. cbn [truthy].
  by rewrite bool_decide_eq_true_2.
Qed.

(** The listing of a path that leads to an entry inside the one
    reference above it. *)
Lemma readdir_resolved_entry path ref_name e :
  String.eqb path "/" = false ->
  refs_below repo path = [] ->
  path ∉ refs repo ->
  resolves_to_entry repo path ref_name e ->
  readdir repo path =
    if is_dir_entry e then
      subtree ← getitem repo (oid e);
      git_tree_to_direntries subtree
    else Return [].
Proof.
  intros Hroot Hbelow Hnotref (Habove & commit & tree & Hc & Ht & Hf).
  rewrite readdir_below_refs by done. cbv zeta. rewrite Habove.
  cbn [length Nat.eqb]. rewrite index_singleton, bind_Return.
  by rewrite Hc, bind_Return, Ht, bind_Return, Hf, bind_Return.
Qed.

End tree_listing.

(** X15. Listing a reference returns the names of the entries of its
    commit's root tree, in the order of the tree; a symbolic reference
    is followed to its target first. *)
Theorem readdir_of_reference repo path ref o commit entries :
  String.eqb path "/" = false ->
  refs_below repo path = [] ->
  path ∈ refs repo ->
  lookup_reference repo ("refs" +:+ path) = Return ref ->
  resolve repo ref = Return (Direct o) ->
  getitem repo o = Return commit ->
  commit_tree repo commit = Return (Tree entries) ->
  readdir repo path = Return (map name entries).
Proof.
  intros Hroot Hbelow Hin Hl Hr Ho Ht.
  rewrite readdir_reference by done.
  rewrite Hl, bind_Return, Hr, bind_Return. cbn [ref_oid].
  by rewrite bind_Return, Ho, bind_Return, Ht, bind_Return.
Qed.

Lemma readdir_of_reference_witness :
  readdir
    (mkRepo Samples.dir_stat
       [("refs/heads/main", Direct 1%N);
        ("refs/remotes/origin/HEAD", Symbolic "refs/heads/main")]
       Samples.store)
    "/remotes/origin/HEAD"
  = Return ["README"; "src"].
Proof.
  apply (readdir_of_reference _ "/remotes/origin/HEAD"
           (Symbolic "refs/heads/main") 1%N (Commit 2%N)
           [mkEntry "README" 33188 3%N; mkEntry "src" 16384 4%N]);
    try reflexivity.
  apply (bool_decide_unpack _). vm_compute. exact I.
Defined.

(** X16. Listing a directory of a tree: for a path that is no reference
    and has none below it, and that leads, inside the one reference
    above it, to an entry with the directory bit whose object is a
    tree, [readdir] returns the names of that tree's entries, in the
    order of the tree. *)
Theorem readdir_of_tree_directory repo path ref_name e entries :
  String.eqb path "/" = false ->
  refs_below repo path = [] ->
  path ∉ refs repo ->
  resolves_to_entry repo path ref_name e ->
  is_dir_entry e = true ->
  to_object repo e = Return (Tree entries) ->
  readdir repo path = Return (map name entries).
Proof.
  intros Hroot Hbelow Hnotref Hres Hdir Hobj.
  rewrite (readdir_resolved_entry repo path ref_name e) by done.
  rewrite Hdir. unfold to_object in Hobj. by rewrite Hobj, bind_Return.
Qed.

Lemma readdir_of_tree_directory_witness :
  readdir Samples.demo "/heads/main/src" = Return ["main.py"].
Proof.
  apply (readdir_of_tree_directory Samples.demo "/heads/main/src" "/heads/main"
           (mkEntry "src" 16384 4%N) [mkEntry "main.py" 33261 3%N]);
    try reflexivity.
  - apply (bool_decide_unpack _). vm_compute. exact I.
  - split; [reflexivity |].
    exists (Commit 2%N),
      (Tree [mkEntry "README" 33188 3%N; mkEntry "src" 16384 4%N]).
    repeat split; vm_compute; reflexivity.
Defined.

(** ** Listings against attributes *)

(** X17. Every name the root listing returns, unless it begins with a
    dot, is a directory for [getattr]: the attributes of ['/' + name]
    are those of the root. *)
Theorem root_entries_are_directories repo names seg :
  readdir repo "/" = Return names ->
  seg ∈ names ->
  startswith seg "." = false ->
  getattr repo ("/" +:+ seg) = Return (default_stat repo).
Proof.
  rewrite readdir_root. intros [= <-] Hseg Hdot.
  unfold list_frozenset in Hseg.
  rewrite elem_of_elements, elem_of_list_to_set, list_elem_of_fmap in Hseg.
  destruct Hseg as (r & -> & Hr).
  apply (getattr_of_string_prefix repo _ r); [exact Hdot | exact Hr |].
  destruct (head_segment_first repo r Hr) as [_ [Heq | [rest Heq]]];
    apply startswith_app.
  - exists "". by rewrite appstr_nil_r.
  - exists ("/" +:+ rest). by rewrite !appstr_assoc.
Qed.

Lemma root_entries_are_directories_witness :
  getattr Samples.demo ("/" +:+ "tags") = Return (default_stat Samples.demo).
Proof.
  destruct (readdir Samples.demo "/") as [names | e] eqn:E;
    [| vm_compute in E; discriminate].
  apply (root_entries_are_directories Samples.demo names "tags" E);
    [| reflexivity].
  vm_compute in E. injection E as <-.
  apply (bool_decide_unpack _). vm_compute. exact I.
Defined.

(** X18. Every name the listing of a namespace directory returns is a
    directory for [getattr], unless the joined path begins with
    ['/.']. *)
Theorem namespace_entries_are_directories repo path names seg :
  String.eqb path "/" = false ->
  refs_below repo path <> [] ->
  readdir repo path = Return names ->
  seg ∈ names ->
  startswith (path +:+ "/" +:+ seg) "/." = false ->
  getattr repo (path +:+ "/" +:+ seg) = Return (default_stat repo).
Proof.
  intros Hroot Hbelow. rewrite readdir_namespace by done.
  intros [= <-] Hseg Hdot. unfold list_frozenset in Hseg.
  rewrite elem_of_elements, elem_of_list_to_set in Hseg.
  apply namespace_names in Hseg as (r & Hr & _ & Hcase).
  apply (getattr_of_string_prefix repo _ r); [exact Hdot | exact Hr |].
  apply startswith_app. destruct Hcase as [[_ ->] | [rest ->]].
  - exists "". by rewrite appstr_nil_r.
  - exists ("/" +:+ rest). by rewrite !appstr_assoc.
Qed.

Lemma namespace_entries_are_directories_witness :
  getattr Samples.demo ("/heads" +:+ "/" +:+ "dev")
    = Return (default_stat Samples.demo).
Proof.
  destruct (readdir Samples.demo "/heads") as [names | e] eqn:E;
    [| vm_compute in E; discriminate].
  apply (namespace_entries_are_directories Samples.demo "/heads" names "dev"
           eq_refl); [| exact E | | reflexivity].
  - vm_compute. discriminate.
  - vm_compute in E. injection E as <-.
    apply (bool_decide_unpack _). vm_compute. exact I.
Defined.

(** ** Listed entries of a tree are found *)

Section prefixes.

(** Two prefixes of one string: one is a prefix of the other. *)
Lemma startswith_comparable s p q :
  startswith s p = true -> startswith s q = true ->
  startswith p q = true \/ startswith q p = true.
Proof.
  revert s q. induction p as [| a p IH]; intros s q Hp Hq.
  - right. reflexivity.
  - destruct q as [| b q]; [by left |].
    destruct s as [| c s]; [discriminate |]. simpl in Hp, Hq |- *.
    destruct (Ascii.eqb a c) eqn:Eac; [| discriminate].
    destruct (Ascii.eqb b c) eqn:Ebc; [| discriminate].
    apply Ascii.eqb_eq in Eac as ->. apply Ascii.eqb_eq in Ebc as ->.
    rewrite Ascii.eqb_refl. by apply (IH s).
Qed.

(** A string that ends in a slash, cut in two. *)
Lemma slash_end_split a b y :
  a +:+ "/" = b +:+ y ->
  (y = "" /\ b = a +:+ "/") \/ (exists y', y = y' +:+ "/" /\ a = b +:+ y').
Proof.
  revert a. induction b as [| c b IH]; intros a H.
  - right. exists a. change (a +:+ "/" = y) in H. by split.
  - destruct a as [| c' a].
    + change ("/" = String c (b +:+ y)) in H. injection H as <- Hby.
      destruct b; [| discriminate]. change ("" = y) in Hby.
      left. by split.
    + change (String c' (a +:+ "/") = String c (b +:+ y)) in H.
      injection H as -> H. destruct (IH a H) as [[-> ->] | (y' & -> & ->)].
      * left. by split.
      * right. exists y'. by split.
Qed.

Lemma slash_end_inj a b : a +:+ "/" = b +:+ "/" -> a = b.
Proof.
  intros H. change (b +:+ "/") with (b +:+ ("" +:+ "/")) in H.
  rewrite <- appstr_assoc in H.
  revert b H. induction a as [| c a IH]; intros b H.
  - destruct b as [| d b]; [reflexivity |].
    change ("/" = String d ((b +:+ "") +:+ "/")) in H. injection H as <- H.
    by destruct b.
  - destruct b as [| d b].
    + change (String c (a +:+ "/") = "/") in H. injection H as -> H.
      by destruct a.
    + change (String c (a +:+ "/") = String d ((b +:+ "") +:+ "/")) in H.
      injection H as -> H. f_equal. by apply IH.
Qed.

Lemma startswith_app_same s t p :
  (String.length p <= String.length s)%nat ->
  startswith (s +:+ t) p = startswith s p.
Proof.
  revert s. induction p as [| a p IH]; intros s Hlen; [reflexivity |].
  destruct s as [| b s]; [simpl in Hlen; lia |].
  change (String b s +:+ t) with (String b (s +:+ t)). simpl.
  destruct (Ascii.eqb a b); [| reflexivity].
  apply IH. simpl in Hlen. lia.
Qed.

Lemma filter_ext_elem {A} (P Q : A -> Prop)
    `{!forall x, Decision (P x)} `{!forall x, Decision (Q x)} (l : list A) :
  (forall x, x ∈ l -> P x <-> Q x) -> filter P l = filter Q l.
Proof.
  induction l as [| x l IH]; intros Hext; [reflexivity |].
  assert (Hl : forall y, y ∈ l -> P y <-> Q y)
    by (intros y Hy; apply Hext; by right).
  destruct (decide (P x)) as [Hp | Hp].
  - rewrite !filter_cons_True; [by rewrite IH | | done].
    apply Hext; [left | done].
  - rewrite !filter_cons_False; [by apply IH | | done].
    intros Hq. apply Hp, Hext; [left | done].
Qed.

Lemma filter_eq_NoDup (l : list string) x :
  NoDup l -> x ∈ l -> filter (fun r => r = x) l = [x].
Proof.
  induction 1 as [| y l Hy Hnd IH]; intros Hx; [by apply elem_of_nil in Hx |].
  destruct (decide (y = x)) as [-> | Hne].
  - rewrite filter_cons_True by done. f_equal.
    clear IH Hx Hnd. induction l as [| z l IHl]; [reflexivity |].
    rewrite filter_cons_False; [| intros ->; apply Hy; left].
    apply IHl. intros Hin. apply Hy. by right.
  - rewrite filter_cons_False by done. apply IH.
    apply elem_of_cons in Hx as [-> | Hx]; done.
Qed.

End prefixes.

Section children.

Variable repo : Repository.

(** Below a path that is no reference and has no reference under it,
    the references above a child are those above the path. *)
Lemma refs_above_child path n :
  path ∉ refs repo -> refs_below repo path = [] ->
  refs_above repo (path +:+ "/" +:+ n) = refs_above repo path.
Proof.
  intros Hnot Hbelow. unfold refs_above. apply filter_ext_elem.
  intros r Hr. rewrite !Is_true_true. split.
  - intros Hp.
    assert (Hq : startswith (path +:+ "/" +:+ n) (path +:+ "/") = true)
      by (rewrite <- appstr_assoc; apply startswith_app_l).
    destruct (startswith_comparable _ _ _ Hp Hq) as [H | H];
      apply startswith_app in H as [y H];
      destruct (slash_end_split _ _ _ H) as [[-> Hb] | (y' & -> & ->)].
    + apply slash_end_inj in Hb as ->. done.
    + assert (Hin : (path +:+ "/") +:+ y' ∈ refs_below repo path).
      { unfold refs_below. apply list_elem_of_filter. split; [| done].
        apply Is_true_true, startswith_app_l. }
      rewrite Hbelow in Hin. by apply elem_of_nil in Hin.
    + apply slash_end_inj in Hb as ->. done.
    + apply startswith_app_l.
  - intros [rest ->]%startswith_app. apply startswith_app.
    exists (rest +:+ "/" +:+ n). by rewrite !appstr_assoc.
Qed.

(** Below a reference that has none above and none under it, and whose
    name stands once in the table, the reference is the only one above
    a child. *)
Lemma refs_above_reference_child path n :
  NoDup (refs repo) -> path ∈ refs repo ->
  refs_above repo path = [] -> refs_below repo path = [] ->
  refs_above repo (path +:+ "/" +:+ n) = [path].
Proof.
  intros Hnd Hin Habove Hbelow. unfold refs_above.
  rewrite (filter_ext_elem _ (fun r => r = path)); [by apply filter_eq_NoDup |].
  intros r Hr. rewrite Is_true_true. split.
  - intros Hp.
    assert (Hq : startswith (path +:+ "/" +:+ n) (path +:+ "/") = true)
      by (rewrite <- appstr_assoc; apply startswith_app_l).
    destruct (startswith_comparable _ _ _ Hp Hq) as [H | H];
      apply startswith_app in H as [y H];
      destruct (slash_end_split _ _ _ H) as [[-> Hb] | (y' & -> & ->)].
    + by apply slash_end_inj in Hb.
    + assert (Hin' : (path +:+ "/") +:+ y' ∈ refs_below repo path).
      { unfold refs_below. apply list_elem_of_filter. split; [| done].
        apply Is_true_true, startswith_app_l. }
      rewrite Hbelow in Hin'. by apply elem_of_nil in Hin'.
    + by apply slash_end_inj in Hb.
    + assert (Hin' : r ∈ refs_above repo ((r +:+ "/") +:+ y')).
      { unfold refs_above. apply list_elem_of_filter. split; [| done].
        apply Is_true_true, startswith_app_l. }
      rewrite Habove in Hin'. by apply elem_of_nil in Hin'.
  - intros ->. rewrite <- appstr_assoc. apply startswith_app_l.
Qed.

Lemma child_no_child_refs path n :
  refs_below repo path = [] -> get_child_refs repo (path +:+ "/" +:+ n) = [].
Proof.
  intros Hbelow.
  destruct (get_child_refs repo (path +:+ "/" +:+ n)) as [| r l] eqn:E;
    [reflexivity |].
  assert (Hr : r ∈ get_child_refs repo (path +:+ "/" +:+ n)) by (rewrite E; left).
  unfold get_child_refs in Hr. apply list_elem_of_filter in Hr as [Hp Hr].
  assert (Hin : r ∈ refs_below repo path).
  { unfold refs_below. apply list_elem_of_filter. split; [| done].
    apply Is_true_true. apply Is_true_true in Hp.
    apply (startswith_trans _ _ _ Hp).
    rewrite <- appstr_assoc. apply startswith_app_l. }
  rewrite Hbelow in Hin. by apply elem_of_nil in Hin.
Qed.

Lemma child_hidden path n :
  startswith path "/" = true ->
  startswith (path +:+ "/" +:+ n) "/." = startswith path "/.".
Proof.
  by destruct path as [| c [| d path]].
Qed.

Lemma entry_named_listed entries n :
  n ∈ map name entries ->
  exists e', entry_named (Tree entries) n = Some e' /\
             e' ∈ entries /\ name e' = n.
Proof.
  intros (e0 & -> & Hin)%list_elem_of_fmap. simpl.
  destruct (List.find _ entries) as [e' |] eqn:Hf.
  - apply find_some in Hf as [Hin' Heq]. apply String.eqb_eq in Heq.
    exists e'. by rewrite list_elem_of_In.
  - apply list_elem_of_In in Hin.
    pose proof (find_none _ _ Hf _ Hin) as Hne. simpl in Hne.
    by rewrite String.eqb_refl in Hne.
Qed.

(** A path that leads to an entry is not NotFound for [getattr]. *)
Lemma getattr_found path ref_name e :
  startswith path "/." = false ->
  get_child_refs repo path = [] ->
  resolves_to_entry repo path ref_name e ->
  getattr repo path <> Raise (FuseOSError ENOENT) /\
  (is_dir_entry e = true -> getattr repo path = Return (default_stat repo)) /\
  (forall data, to_object repo e = Return (Blob data) ->
                exists st, getattr repo path = Return st).
Proof.
  intros Hdot Hchild Hres.
  rewrite (getattr_entry repo path ref_name e Hdot Hchild Hres).
  unfold to_object, getitem.
  destruct (is_dir_entry e); [by eauto |].
  destruct (objects repo !! oid e) as [[| | d |] |]; simpl;
    repeat split; try done; try (intros data [= <-]); by eauto.
Qed.

End children.

(** X19. What a directory of a tree lists, [getattr] finds: for every
    name without slash in the listing of such a directory, the joined
    path leads to an entry of that name in the same reference, and the
    attribute query on it does not raise NotFound; it returns the
    directory record for an entry with the directory bit and a record
    for every entry whose object is a blob in the store. *)
Theorem tree_entries_are_found repo path ref_name e entries names n :
  startswith path "/." = false ->
  refs_below repo path = [] ->
  path ∉ refs repo ->
  resolves_to_entry repo path ref_name e ->
  is_dir_entry e = true ->
  to_object repo e = Return (Tree entries) ->
  readdir repo path = Return names ->
  n ∈ names ->
  no_slash n = true ->
  exists e',
    e' ∈ entries /\ name e' = n /\
    resolves_to_entry repo (path +:+ "/" +:+ n) ref_name e' /\
    getattr repo (path +:+ "/" +:+ n) <> Raise (FuseOSError ENOENT) /\
    (is_dir_entry e' = true ->
     getattr repo (path +:+ "/" +:+ n) = Return (default_stat repo)) /\
    (forall data, to_object repo e' = Return (Blob data) ->
       exists st, getattr repo (path +:+ "/" +:+ n) = Return st).
Proof.
  intros Hdot Hbelow Hnotref Hres Hdir Hobj Hls Hn Hns.
  pose proof Hres as (Habove & commit & tree & Hc & Ht & Hf).
  assert (Hin : ref_name ∈ refs_above repo path) by (rewrite Habove; left).
  pose proof (refs_above_not_root repo path ref_name Hin) as Hroot.
  destruct (refs_above_splits repo path ref_name Hin) as [Hr Hpath].
  rewrite (readdir_resolved_entry repo path ref_name e) in Hls by done.
  rewrite Hdir in Hls. unfold to_object in Hobj.
  rewrite Hobj, bind_Return in Hls. injection Hls as <-.
  destruct (entry_named_listed entries n Hn) as (e' & Hnamed & Hin' & Hname).
  exists e'. split; [done |]. split; [done |].
  assert (Hres' : resolves_to_entry repo (path +:+ "/" +:+ n) ref_name e').
  { split; [by rewrite refs_above_child |].
    exists commit, tree. split; [done |]. split; [done |].
    rewrite Hpath at 1. rewrite !appstr_assoc.
    change ("/" +:+ str_from path (String.length ref_name + 1) +:+ "/" +:+ n)
      with (String "/" (str_from path (String.length ref_name + 1) +:+ "/" +:+ n)).
    rewrite str_from_after.
    by rewrite (git_tree_find_extend repo tree _ e (Tree entries) n Hf Hobj Hns), Hnamed. }
  split; [done |].
  apply (getattr_found repo _ ref_name e'); [| by apply child_no_child_refs | done].
  rewrite child_hidden; [done |].
  apply refs_leading_slash in Hr as [r' ->]. by rewrite Hpath.
Qed.

Lemma tree_entries_are_found_witness :
  exists e',
    e' ∈ [mkEntry "main.py" 33261 3%N] /\ name e' = "main.py" /\
    resolves_to_entry Samples.demo ("/heads/main/src" +:+ "/" +:+ "main.py")
      "/heads/main" e' /\
    getattr Samples.demo ("/heads/main/src" +:+ "/" +:+ "main.py")
      <> Raise (FuseOSError ENOENT) /\
    (is_dir_entry e' = true ->
     getattr Samples.demo ("/heads/main/src" +:+ "/" +:+ "main.py")
       = Return (default_stat Samples.demo)) /\
    (forall data, to_object Samples.demo e' = Return (Blob data) ->
       exists st, getattr Samples.demo ("/heads/main/src" +:+ "/" +:+ "main.py")
                  = Return st).
Proof.
  apply (tree_entries_are_found Samples.demo "/heads/main/src" "/heads/main"
           (mkEntry "src" 16384 4%N) [mkEntry "main.py" 33261 3%N]
           ["main.py"] "main.py"); try reflexivity.
  - apply (bool_decide_unpack _). vm_compute. exact I.
  - split; [reflexivity |].
    exists (Commit 2%N),
      (Tree [mkEntry "README" 33188 3%N; mkEntry "src" 16384 4%N]).
    repeat split; vm_compute; reflexivity.
  - left.
Defined.

(** X20. What a reference lists, [getattr] finds: when the reference
    names are distinct and the reference has no other above or under
    it, every name without slash among the entries of its commit's root
    tree, joined to the reference, leads to an entry of that name, and
    the attribute query on it does not raise NotFound. *)
Theorem reference_entries_are_found repo path commit entries n :
  NoDup (refs repo) ->
  path ∈ refs repo ->
  startswith path "/." = false ->
  refs_above repo path = [] ->
  refs_below repo path = [] ->
  get_reference_commit repo path = Return commit ->
  commit_tree repo commit = Return (Tree entries) ->
  n ∈ map name entries ->
  no_slash n = true ->
  exists e',
    e' ∈ entries /\ name e' = n /\
    resolves_to_entry repo (path +:+ "/" +:+ n) path e' /\
    getattr repo (path +:+ "/" +:+ n) <> Raise (FuseOSError ENOENT) /\
    (is_dir_entry e' = true ->
     getattr repo (path +:+ "/" +:+ n) = Return (default_stat repo)) /\
    (forall data, to_object repo e' = Return (Blob data) ->
       exists st, getattr repo (path +:+ "/" +:+ n) = Return st).
Proof.
  intros Hnd Hin Hdot Habove Hbelow Hc Ht Hn Hns.
  destruct (entry_named_listed entries n Hn) as (e' & Hnamed & Hin' & Hname).
  exists e'. split; [done |]. split; [done |].
  assert (Hres' : resolves_to_entry repo (path +:+ "/" +:+ n) path e').
  { split; [by apply refs_above_reference_child |].
    exists commit, (Tree entries). split; [done |]. split; [done |].
    change ("/" +:+ n) with (String "/" n). rewrite str_from_after.
    by rewrite (git_tree_find_one_segment repo _ _ Hns), Hnamed. }
  split; [done |].
  apply (getattr_found repo _ path e'); [| by apply child_no_child_refs | done].
  rewrite child_hidden; [done |].
  by apply refs_leading_slash in Hin as [r' ->].
Qed.

Lemma reference_entries_are_found_witness :
  exists e',
    e' ∈ [mkEntry "README" 33188 3%N; mkEntry "src" 16384 4%N] /\
    name e' = "README" /\
    resolves_to_entry Samples.demo ("/tags/v1" +:+ "/" +:+ "README") "/tags/v1" e' /\
    getattr Samples.demo ("/tags/v1" +:+ "/" +:+ "README")
      <> Raise (FuseOSError ENOENT) /\
    (is_dir_entry e' = true ->
     getattr Samples.demo ("/tags/v1" +:+ "/" +:+ "README")
       = Return (default_stat Samples.demo)) /\
    (forall data, to_object Samples.demo e' = Return (Blob data) ->
       exists st, getattr Samples.demo ("/tags/v1" +:+ "/" +:+ "README")
                  = Return st).
Proof.
  apply (reference_entries_are_found Samples.demo "/tags/v1" (Commit 2%N)
           [mkEntry "README" 33188 3%N; mkEntry "src" 16384 4%N] "README");
    try reflexivity.
  - apply (bool_decide_unpack _). vm_compute. exact I.
  - apply (bool_decide_unpack _). vm_compute. exact I.
  - left.
Defined.

(** ** Reading and opening: sizes, chunks and errors *)

Section read_facts.

Variable repo : Repository.

Lemma slice_length_le {A} (l : list A) (i sz : Z) :
  0 <= sz -> Z.of_nat (length (slice l i (i + sz))) <= sz.
Proof.
  intros Hsz. unfold slice. rewrite length_take.
  set (n := Z.of_nat (length l)).
  assert (slice_bound n (i + sz) - slice_bound n i <= sz).
  { unfold slice_bound.
    destruct (Z.ltb_spec (i + sz) 0), (Z.ltb_spec i 0); lia. }
  lia.
Qed.

(** A read of a blob with non-negative offset and size. *)
Lemma read_blob_range path data size offset :
  resolves_to_blob repo path data ->
  0 <= offset -> 0 <= size ->
  read repo path size offset
    = Return (VStr (take (Z.to_nat size) (drop (Z.to_nat offset) data))).
Proof.
  intros Hres Hoff Hsize. rewrite (read_blob repo path data size offset Hres).
  rewrite <- slice_take_drop by done.
  destruct (Z.eqb_spec offset 0) as [-> | Hne]; [| reflexivity].
  destruct (Z.leb_spec (Z.of_nat (length data)) size) as [Hle | Hgt];
    [| reflexivity].
  simpl andb. cbv iota. by rewrite slice_whole.
Qed.

Lemma bind_Raise_inv {A B} (m : result A) (f : A -> result B) e :
  m ≫= f = Raise e -> m = Raise e \/ exists a, m = Return a /\ f a = Raise e.
Proof.
  intros H. destruct m as [a | e'];
    [right | left; rewrite bind_Raise in H; by injection H as ->].
  exists a. split; [reflexivity | exact H].
Qed.

Lemma index_raises {A} (l : list A) i e :
  index l i = Raise e -> is_FuseOSError e = false.
Proof. unfold index. destruct (l !! i); [done |]. by intros [= <-]. Qed.

Lemma lookup_reference_raises n e :
  lookup_reference repo n = Raise e -> is_FuseOSError e = false.
Proof.
  unfold lookup_reference. destruct (List.find _ _); [done |]. by intros [= <-].
Qed.

Lemma ref_oid_raises ref e : ref_oid ref = Raise e -> is_FuseOSError e = false.
Proof. destruct ref; [done |]. by intros [= <-]. Qed.

Lemma getitem_raises o e : getitem repo o = Raise e -> is_FuseOSError e = false.
Proof. unfold getitem. destruct (_ !! _); [done |]. by intros [= <-]. Qed.

Lemma commit_tree_raises c e :
  commit_tree repo c = Raise e -> is_FuseOSError e = false.
Proof.
  destruct c; simpl; try (by intros [= <-]). apply getitem_raises.
Qed.

Lemma blob_data_raises b e : blob_data b = Raise e -> is_FuseOSError e = false.
Proof. destruct b; simpl; try done; by intros [= <-]. Qed.

Lemma git_tree_find_raises_no_fuse t path e :
  git_tree_find repo t path = Raise e -> is_FuseOSError e = false.
Proof. by intros [-> | ->]%git_tree_find_raises. Qed.

End read_facts.

(** X21. [read] never returns more than it was asked for: for a
    non-negative [size], at any offset and on any path, the byte string
    returned is at most [size] long. *)
Theorem read_at_most_size repo path size offset out :
  0 <= size ->
  read repo path size offset = Return (VStr out) ->
  Z.of_nat (length out) <= size.
Proof.
  intros Hsize. unfold read.
  destruct (startswith path "/."); [discriminate |]. cbv zeta.
  destruct (length _ =? 1)%nat;
    [| destruct (1 <? length _)%nat; discriminate].
  intros H.
  apply bind_Return_inv in H as (ref_name & _ & H).
  apply bind_Return_inv in H as (ref & _ & H).
  apply bind_Return_inv in H as (o & _ & H).
  apply bind_Return_inv in H as (commit & _ & H).
  apply bind_Return_inv in H as (tree & _ & H).
  apply bind_Return_inv in H as ([entry |] & _ & H); [| discriminate].
  apply bind_Return_inv in H as (blob & _ & H).
  apply bind_Return_inv in H as (data & _ & H).
  destruct (Z.eqb_spec offset 0) as [-> | Hne].
  - destruct (Z.leb_spec (Z.of_nat (length data)) size) as [Hle | Hgt];
      simpl in H; injection H as <-; [done | by apply slice_length_le].
  - simpl in H. injection H as <-. by apply slice_length_le.
Qed.

Lemma read_at_most_size_witness :
  Z.of_nat (length (take 3 (drop 1 Samples.hello))) <= 3.
Proof.
  apply (read_at_most_size Samples.demo "/heads/main/README" 3 1); [lia |].
  reflexivity.
Defined.

(** X22. Reads in chunks compose: on a blob, the bytes of a read of [a]
    bytes at [offset] followed by those of a read of [b] bytes at
    [offset + a] are the bytes of one read of [a + b] bytes at
    [offset]. *)
Theorem read_chunks_compose repo path data offset a b :
  resolves_to_blob repo path data ->
  0 <= offset -> 0 <= a -> 0 <= b ->
  exists x y,
    read repo path a offset = Return (VStr x) /\
    read repo path b (offset + a) = Return (VStr y) /\
    read repo path (a + b) offset = Return (VStr (x ++ y)).
Proof.
  intros Hres Ho Ha Hb. eexists _, _.
  split; [by apply (read_blob_range repo path data) |].
  split; [apply (read_blob_range repo path data); [done | lia | done] |].
  rewrite (read_blob_range repo path data) by (done || lia). do 2 f_equal.
  rewrite !Z2Nat.inj_add by done.
  by rewrite <- drop_drop, take_take_drop.
Qed.

Lemma read_chunks_compose_witness :
  exists x y,
    read Samples.demo "/heads/main/README" 2 1 = Return (VStr x) /\
    read Samples.demo "/heads/main/README" 2 (1 + 2) = Return (VStr y) /\
    read Samples.demo "/heads/main/README" (2 + 2) 1 = Return (VStr (x ++ y)).
Proof.
  apply (read_chunks_compose Samples.demo "/heads/main/README" Samples.hello);
    [| lia | lia | lia].
  split; [reflexivity |].
  exists "/heads/main", (mkEntry "README" 33188 3%N).
  split; [| reflexivity].
  split; [reflexivity |].
  exists (Commit 2%N),
    (Tree [mkEntry "README" 33188 3%N; mkEntry "src" 16384 4%N]).
  repeat split; vm_compute; reflexivity.
Defined.

(** X23. [read] never raises a [FuseOSError]: where it reports NotFound
    it returns the exception object as its value, and what it does
    raise is the duplicate-reference error or an exception of a lookup
    it made. *)
Theorem read_raises_no_FuseOSError repo path size offset e :
  read repo path size offset = Raise e -> is_FuseOSError e = false.
Proof.
  unfold read. destruct (startswith path "/."); [discriminate |]. cbv zeta.
  destruct (length _ =? 1)%nat.
  - intros H.
    apply bind_Raise_inv in H as [H | (ref_name & _ & H)];
      [by apply index_raises in H |].
    apply bind_Raise_inv in H as [H | (ref & _ & H)];
      [by apply lookup_reference_raises in H |].
    apply bind_Raise_inv in H as [H | (o & _ & H)];
      [by apply ref_oid_raises in H |].
    apply bind_Raise_inv in H as [H | (commit & _ & H)];
      [by apply getitem_raises in H |].
    apply bind_Raise_inv in H as [H | (tree & _ & H)];
      [by apply commit_tree_raises in H |].
    apply bind_Raise_inv in H as [H | (entry & _ & H)];
      [by apply git_tree_find_raises_no_fuse in H |].
    destruct entry as [entry |]; [| discriminate].
    apply bind_Raise_inv in H as [H | (blob & _ & H)];
      [by apply getitem_raises in H |].
    apply bind_Raise_inv in H as [H | (data & _ & H)];
      [by apply blob_data_raises in H |].
    by destruct (_ && _).
  - destruct (1 <? length _)%nat; [| discriminate]. by intros [= <-].
Qed.

Lemma read_raises_no_FuseOSError_witness :
  is_FuseOSError
    (GitFSError "Duplicate refs matching path in read query: {0}"
       ["/heads/foo"; "/heads/foo/bar"]) = false.
Proof.
  apply (read_raises_no_FuseOSError Samples.nested "/heads/foo/bar/x" 4096 0).
  reflexivity.
Defined.

(** X24. A missing file is reported by [read] as a returned value: on a
    path that does not begin with ['/.'], with no reference above it, or
    with one reference above it and no entry at the relative path,
    [read] returns the [FuseOSError(ENOENT)] object. *)
Theorem read_returns_not_found repo path size offset :
  startswith path "/." = false ->
  (refs_above repo path = [] ->
   read repo path size offset = Return (VExc (FuseOSError ENOENT))) /\
  (forall ref_name commit tree,
     refs_above repo path = [ref_name] ->
     get_reference_commit repo ref_name = Return commit ->
     commit_tree repo commit = Return tree ->
     git_tree_find repo tree (str_from path (String.length ref_name + 1))
       = Return None ->
     read repo path size offset = Return (VExc (FuseOSError ENOENT))).
Proof.
  intros Hdot. split.
  - intros Habove. unfold read. rewrite Hdot. cbv zeta.
    fold (refs_above repo path). by rewrite Habove.
  - intros ref_name commit tree Habove Hc Ht Hf. unfold read.
    rewrite Hdot. cbv zeta. fold (refs_above repo path). rewrite Habove.
    cbn [length Nat.eqb]. rewrite index_singleton, bind_Return.
    unfold get_reference_commit in Hc.
    destruct (lookup_reference repo _) as [ref | e']; [| discriminate].
    rewrite bind_Return in Hc. rewrite bind_Return.
    destruct (ref_oid ref) as [o | e']; [| discriminate].
    rewrite bind_Return in Hc. rewrite bind_Return.
    by rewrite Hc, bind_Return, Ht, bind_Return, Hf, bind_Return.
Qed.

Lemma read_returns_not_found_witness :
  read Samples.demo "/nothing/here" 4096 0 = Return (VExc (FuseOSError ENOENT)) /\
  read Samples.demo "/heads/main/nothing" 4096 0
    = Return (VExc (FuseOSError ENOENT)).
Proof.
  split.
  - apply (read_returns_not_found Samples.demo "/nothing/here" 4096 0 eq_refl).
    reflexivity.
  - apply (proj2 (read_returns_not_found Samples.demo "/heads/main/nothing"
                    4096 0 eq_refl)
             "/heads/main" (Commit 2%N)
             (Tree [mkEntry "README" 33188 3%N; mkEntry "src" 16384 4%N]));
      reflexivity.
Defined.

(** X25. [open] does not look at its flags: whatever they are, it
    returns handle 0, or the NotFound object for a path that begins with
    ['/.']; it never returns the permission error and never raises. *)
Theorem open_ignores_flags path flags :
  open path flags =
    (if startswith path "/." then Return (VExc (FuseOSError ENOENT))
     else Return (VInt 0)) /\
  open path flags <> Return (VExc (FuseOSError EACCES)) /\
  (forall flags', open path flags' = open path flags).
Proof.
  assert (H : forall f, open path f =
    if startswith path "/." then Return (VExc (FuseOSError ENOENT))
    else Return (VInt 0)).
  { intros f. unfold open. destruct (startswith path "/."); [reflexivity |].
    by rewrite open_access_test_never_fires. }
  split; [apply H |]. split.
  - rewrite H. by destruct (startswith path "/.").
  - intros flags'. by rewrite !H.
Qed.

(** X26. The size [getattr] reports for a file is the size [read]
    serves: asking for that many bytes at offset 0 returns the whole
    blob, and asking at that offset returns the empty string. *)
Theorem read_serves_reported_size repo path ref_name e data st :
  startswith path "/." = false ->
  get_child_refs repo path = [] ->
  resolves_to_entry repo path ref_name e ->
  is_dir_entry e = false ->
  to_object repo e = Return (Blob data) ->
  getattr repo path = Return st ->
  st_size st = Z.of_nat (length data) /\
  read repo path (st_size st) 0 = Return (VStr data) /\
  (forall size, 0 <= size ->
     read repo path size (st_size st) = Return (VStr [])).
Proof.
  intros Hdot Hchild Hres Hdir Hobj Hst.
  rewrite (getattr_entry repo path ref_name e Hdot Hchild Hres), Hdir in Hst.
  pose proof Hobj as Hobj'. unfold to_object in Hobj'.
  rewrite Hobj', bind_Return in Hst. simpl in Hst. injection Hst as <-.
  assert (Hblob : resolves_to_blob repo path data).
  { split; [done |]. by exists ref_name, e. }
  split; [reflexivity |].
  change (st_size (copy_stat _ _)) with (Z.of_nat (length data)). split.
  - rewrite (read_blob_range repo path data) by (done || lia).
    rewrite Nat2Z.id, drop_0. by rewrite take_ge.
  - intros size Hsize. rewrite (read_blob_range repo path data) by (done || lia).
    rewrite Nat2Z.id, drop_all. by rewrite take_nil.
Qed.

Lemma read_serves_reported_size_witness :
  st_size (mkStat 33060 0 5 2 1000 1000 5 11 12 13)
    = Z.of_nat (length Samples.hello) /\
  read Samples.demo "/heads/main/README"
    (st_size (mkStat 33060 0 5 2 1000 1000 5 11 12 13)) 0
    = Return (VStr Samples.hello) /\
  (forall size, 0 <= size ->
     read Samples.demo "/heads/main/README" size
       (st_size (mkStat 33060 0 5 2 1000 1000 5 11 12 13)) = Return (VStr [])).
Proof.
  apply (read_serves_reported_size Samples.demo "/heads/main/README"
           "/heads/main" (mkEntry "README" 33188 3%N) Samples.hello);
    try reflexivity.
  split; [reflexivity |].
  exists (Commit 2%N),
    (Tree [mkEntry "README" 33188 3%N; mkEntry "src" 16384 4%N]).
  repeat split; vm_compute; reflexivity.
Defined.
